(** * Redis-backed cache with call counting, call history and replay

    A shallow embedding of [0x02-redis_basic/exercise.py]: the decorators
    [count_calls] and [call_history], the class [Cache] ([__init__], [store],
    [get], [get_str]), the module-level functions [get_int] and [replay],
    together with the parts of the Python runtime and of the Redis client
    that this code calls.

    Layout: text and bytes, Python values and builtins, the Redis server
    and client, the effect monad, UUID generation, the program, the
    vocabulary of the properties; then the lemmas on each layer, the
    properties of the specification, and runs on concrete inputs. *)

From Stdlib Require Import ZArith NArith Ascii String List Decimal DecimalString DecimalZ DecimalPos Lia.
From stdpp Require Import gmap strings list.

Set Warnings "-register-all".

Local Open Scope string_scope.
Local Open Scope list_scope.

(* ===================================================================== *)
(** ** Text and bytes *)
(* ===================================================================== *)

(** A Python [bytes] object is a Rocq [string] (a sequence of 8-bit
    characters); a Python [str] is a sequence of Unicode code points. *)
Module Text.

Definition pystr := list N.

(** The [str] whose code points are the bytes of an ASCII literal. *)
Definition u (s : string) : pystr := map N_of_ascii (list_ascii_of_string s).

Definition byte (n : N) : ascii := ascii_of_N n.

Definition is_surrogate (c : N) : bool := ((0xD800 <=? c) && (c <=? 0xDFFF))%N.

(** [str.encode("utf-8", "strict")] on one code point. *)
Definition utf8_encode_cp (c : N) : option (list ascii) :=
  if (c <? 0x80)%N then Some [byte c]
  else if (c <? 0x800)%N then
    Some [byte (N.lor 0xC0 (N.shiftr c 6)); byte (N.lor 0x80 (N.land c 0x3F))]
  else if (c <? 0x10000)%N then
    if is_surrogate c then None
    else Some [byte (N.lor 0xE0 (N.shiftr c 12));
               byte (N.lor 0x80 (N.land (N.shiftr c 6) 0x3F));
               byte (N.lor 0x80 (N.land c 0x3F))]
  else if (c <? 0x110000)%N then
    Some [byte (N.lor 0xF0 (N.shiftr c 18));
          byte (N.lor 0x80 (N.land (N.shiftr c 12) 0x3F));
          byte (N.lor 0x80 (N.land (N.shiftr c 6) 0x3F));
          byte (N.lor 0x80 (N.land c 0x3F))]
  else None.

Fixpoint utf8_encode_list (s : pystr) : option (list ascii) :=
  match s with
  | [] => Some []
  | c :: s' =>
      match utf8_encode_cp c, utf8_encode_list s' with
      | Some bs, Some rest => Some (bs ++ rest)
      | _, _ => None
      end
  end.

Definition utf8_encode (s : pystr) : option string :=
  option_map string_of_list_ascii (utf8_encode_list s).

Definition is_cont (b : N) : bool := (N.land b 0xC0 =? 0x80)%N.

(** [bytes.decode("utf-8")], strict: continuation bytes are checked, and
    overlong forms, surrogates and values above U+10FFFF are rejected. *)
Fixpoint utf8_decode_list (bs : list N) : option pystr :=
  match bs with
  | [] => Some []
  | b0 :: r0 =>
      if (b0 <? 0x80)%N then option_map (cons b0) (utf8_decode_list r0)
      else if (N.land b0 0xE0 =? 0xC0)%N then
        match r0 with
        | b1 :: r1 =>
            let c := N.lor (N.shiftl (N.land b0 0x1F) 6) (N.land b1 0x3F) in
            if is_cont b1 && (0x80 <=? c)%N
            then option_map (cons c) (utf8_decode_list r1) else None
        | _ => None
        end
      else if (N.land b0 0xF0 =? 0xE0)%N then
        match r0 with
        | b1 :: b2 :: r2 =>
            let c := N.lor (N.shiftl (N.land b0 0x0F) 12)
                       (N.lor (N.shiftl (N.land b1 0x3F) 6) (N.land b2 0x3F)) in
            if is_cont b1 && is_cont b2 && (0x800 <=? c)%N && negb (is_surrogate c)
            then option_map (cons c) (utf8_decode_list r2) else None
        | _ => None
        end
      else if (N.land b0 0xF8 =? 0xF0)%N then
        match r0 with
        | b1 :: b2 :: b3 :: r3 =>
            let c := N.lor (N.shiftl (N.land b0 0x07) 18)
                       (N.lor (N.shiftl (N.land b1 0x3F) 12)
                          (N.lor (N.shiftl (N.land b2 0x3F) 6) (N.land b3 0x3F))) in
            if is_cont b1 && is_cont b2 && is_cont b3
               && (0x10000 <=? c)%N && (c <? 0x110000)%N
            then option_map (cons c) (utf8_decode_list r3) else None
        | _ => None
        end
      else None
  end.

Definition utf8_decode (b : string) : option pystr :=
  utf8_decode_list (map N_of_ascii (list_ascii_of_string b)).

Definition is_ascii (a : ascii) : Prop := (N_of_ascii a < 128)%N.

Definition encodable (c : N) : Prop := utf8_encode_cp c <> None.

(** Lower-case hexadecimal digits at a fixed width, for escapes and UUIDs. *)
Definition hex_digit (n : N) : ascii :=
  nth (N.to_nat n) (list_ascii_of_string "0123456789abcdef") "0"%char.

Fixpoint hex_fixed (width : nat) (n : N) : list ascii :=
  match width with
  | O => []
  | S w => hex_fixed w (N.shiftr n 4) ++ [hex_digit (N.land n 0xF)]
  end.

End Text.
Import Text.

(** Decimal text of an integer, as [repr(int)] and Redis print it. *)
Definition decimal (z : Z) : string := NilZero.string_of_int (Z.to_int z).


(* ===================================================================== *)
(** ** Python values and builtins *)
(* ===================================================================== *)

Module Py.

(** The values that flow through the program.  A [float] is carried by its
    [repr] text, the only thing the program ever asks of one (the Redis
    client serialises [repr(value)]). *)
Inductive pyval : Type :=
| PNone
| PBool (b : bool)
| PInt (z : Z)
| PFloat (r : string)
| PStr (s : pystr)
| PBytes (b : string)
| PList (l : list pyval)
| PTuple (l : list pyval).

(** Exceptions of the builtins and of the Redis client. *)
Inductive pyexc : Type :=
| AttributeError
| TypeError
| ValueError
| UnicodeEncodeError
| UnicodeDecodeError
| DataError
| ResponseError
| UserException (msg : string).

Inductive result (A : Type) : Type :=
| Ok (a : A)
| Raise (e : pyexc).
Arguments Ok {A} a.
Arguments Raise {A} e.

(** The parts of the interpreter that are tables or algorithms of their own:
    [str.isprintable] beyond ASCII (the Unicode database), and [int()] applied
    to a [str] or to a [float].  A printable character is never a surrogate
    nor beyond U+10FFFF, so it can be encoded.  The program is verified for
    every runtime. *)
Class PyRuntime : Type := {
  unicode_isprintable : N -> bool;
  int_of_str : pystr -> result Z;
  int_of_float : string -> result Z;
  printable_encodable : forall c, unicode_isprintable c = true -> encodable c
}.

Definition bytes_to_list (b : string) : list N := map N_of_ascii (list_ascii_of_string b).

Definition contains (c : N) (s : list N) : bool := existsb (N.eqb c) s.

(** [repr] picks double quotes only when the text has a single quote and no
    double quote. *)
Definition quote_for (s : list N) : N :=
  if contains 39 s && negb (contains 34 s) then 34%N else 39%N.

Definition hex_escape (c : N) : pystr :=
  if (c <=? 0xFF)%N then u "\x" ++ map N_of_ascii (hex_fixed 2 c)
  else if (c <=? 0xFFFF)%N then u "\u" ++ map N_of_ascii (hex_fixed 4 c)
  else u "\U" ++ map N_of_ascii (hex_fixed 8 c).

Definition repr_byte (q c : N) : pystr :=
  if ((c =? q) || (c =? 92))%N then [92%N; c]
  else if (c =? 9)%N then u "\t"
  else if (c =? 10)%N then u "\n"
  else if (c =? 13)%N then u "\r"
  else if ((c <? 32) || (127 <=? c))%N then hex_escape c
  else [c].

Definition repr_bytes (b : string) : pystr :=
  let l := bytes_to_list b in
  let q := quote_for l in
  u "b" ++ [q] ++ concat (map (repr_byte q) l) ++ [q].

Section WithRuntime.
Context {rt : PyRuntime}.

Definition repr_char (q c : N) : pystr :=
  if ((c =? q) || (c =? 92))%N then [92%N; c]
  else if (c =? 9)%N then u "\t"
  else if (c =? 10)%N then u "\n"
  else if (c =? 13)%N then u "\r"
  else if ((c <? 32) || (c =? 127))%N then hex_escape c
  else if (c <? 127)%N then [c]
  else if unicode_isprintable c then [c]
  else hex_escape c.

Definition repr_str (s : pystr) : pystr :=
  let q := quote_for s in
  [q] ++ concat (map (repr_char q) s) ++ [q].

Fixpoint join (sep : pystr) (l : list pystr) : pystr :=
  match l with
  | [] => []
  | [x] => x
  | x :: l' => x ++ sep ++ join sep l'
  end.

Fixpoint py_repr (v : pyval) : pystr :=
  match v with
  | PNone => u "None"
  | PBool true => u "True"
  | PBool false => u "False"
  | PInt z => u (decimal z)
  | PFloat r => u r
  | PStr s => repr_str s
  | PBytes b => repr_bytes b
  | PList l => u "[" ++ join (u ", ") (map py_repr l) ++ u "]"
  | PTuple l =>
      match map py_repr l with
      | [r] => u "(" ++ r ++ u ",)"
      | rs => u "(" ++ join (u ", ") rs ++ u ")"
      end
  end.

(** [str(v)]: the text itself for a [str], [repr(v)] for the other values. *)
Definition py_str (v : pyval) : pystr :=
  match v with
  | PStr s => s
  | _ => py_repr v
  end.

End WithRuntime.

(** Truth value, for [x or 0]. *)
Definition py_truthy (v : pyval) : bool :=
  match v with
  | PNone => false
  | PBool b => b
  | PInt z => negb (z =? 0)%Z
  | PFloat r => negb (String.eqb r "0.0" || String.eqb r "-0.0")
  | PStr s => negb (Nat.eqb (length s) 0)
  | PBytes b => negb (Nat.eqb (String.length b) 0)
  | PList l | PTuple l => negb (Nat.eqb (length l) 0)
  end.

Definition py_or (a b : pyval) : pyval := if py_truthy a then a else b.

(** [int(b)] for a [bytes] object: optional surrounding ASCII white space,
    an optional sign, then decimal digits with single underscores allowed
    between digits. *)
Definition is_space (a : ascii) : bool :=
  let n := N_of_ascii a in ((n =? 32) || ((9 <=? n) && (n <=? 13)))%N.

Definition is_digit (a : ascii) : bool :=
  let n := N_of_ascii a in ((48 <=? n) && (n <=? 57))%N.

Fixpoint lstrip (l : list ascii) : list ascii :=
  match l with
  | a :: l' => if is_space a then lstrip l' else l
  | [] => []
  end.

Definition strip (l : list ascii) : list ascii := rev (lstrip (rev (lstrip l))).

Fixpoint digits_ok (after_digit : bool) (l : list ascii) : bool :=
  match l with
  | [] => after_digit
  | a :: l' =>
      if is_digit a then digits_ok true l'
      else if Ascii.eqb a "_" then after_digit && digits_ok false l'
      else false
  end.

Definition int_of_bytes (b : string) : option Z :=
  let l := strip (list_ascii_of_string b) in
  let '(neg, ds) :=
    match l with
    | a :: r =>
        if Ascii.eqb a "-" then (true, r)
        else if Ascii.eqb a "+" then (false, r)
        else (false, l)
    | [] => (false, l)
    end in
  if digits_ok false ds then
    option_map (fun d => if neg : bool then (- Z.of_uint d)%Z else Z.of_uint d)
      (NilEmpty.uint_of_string
         (string_of_list_ascii (List.filter (fun a => negb (Ascii.eqb a "_")) ds)))
  else None.

(** The builtin [int(v)]. *)
Definition py_int {rt : PyRuntime} (v : pyval) : result pyval :=
  match v with
  | PBytes b =>
      match int_of_bytes b with
      | Some z => Ok (PInt z)
      | None => Raise ValueError
      end
  | PInt z => Ok (PInt z)
  | PBool b => Ok (PInt (if b then 1 else 0))
  | PStr s => match int_of_str s with Ok z => Ok (PInt z) | Raise e => Raise e end
  | PFloat r => match int_of_float r with Ok z => Ok (PInt z) | Raise e => Raise e end
  | PNone | PList _ | PTuple _ => Raise TypeError
  end.

(** [v.decode("utf-8")]: a method of [bytes] only; on the other values the
    attribute lookup raises [AttributeError]. *)
Definition py_decode (v : pyval) : result pystr :=
  match v with
  | PBytes b =>
      match utf8_decode b with
      | Some s => Ok s
      | None => Raise UnicodeDecodeError
      end
  | _ => Raise AttributeError
  end.

End Py.
Import Py.


(* ===================================================================== *)
(** ** The Redis server and client *)
(* ===================================================================== *)

(** The client is redis-py with its defaults ([decode_responses=False]):
    arguments are serialised to bytes by [Encoder.encode], replies come back
    as bytes.  The server keeps strings and lists of strings under byte keys. *)
Module Redis.

Inductive rvalue : Type :=
| RString (s : string)
| RList (l : list string).

(** [Encoder.encode]: bytes pass, [bool] is refused, numbers are written with
    [repr], text is encoded as UTF-8, every other type is refused. *)
Definition encode (v : pyval) : result string :=
  match v with
  | PBytes b => Ok b
  | PBool _ => Raise DataError
  | PInt z => Ok (decimal z)
  | PFloat r => Ok r
  | PStr s =>
      match utf8_encode s with
      | Some b => Ok b
      | None => Raise UnicodeEncodeError
      end
  | PNone | PList _ | PTuple _ => Raise DataError
  end.

Definition ll_min : Z := -9223372036854775808.
Definition ll_max : Z := 9223372036854775807.

(** The server reads a counter only from the canonical decimal text of a
    signed 64-bit integer. *)
Definition string2ll (s : string) : option Z :=
  match NilZero.int_of_string s with
  | Some d =>
      let z := Z.of_int d in
      if String.eqb (decimal z) s && (ll_min <=? z)%Z && (z <=? ll_max)%Z
      then Some z else None
  | None => None
  end.

Definition counter_of (d : gmap string rvalue) (k : string) : option Z :=
  match d !! k with
  | None => Some 0%Z
  | Some (RString s) => string2ll s
  | Some (RList _) => None
  end.

Definition cmd_set (k v : string) (d : gmap string rvalue) : gmap string rvalue :=
  <[k := RString v]> d.

Definition cmd_get (k : string) (d : gmap string rvalue) : result (option string) :=
  match d !! k with
  | None => Ok None
  | Some (RString s) => Ok (Some s)
  | Some (RList _) => Raise ResponseError
  end.

Definition cmd_exists (k : string) (d : gmap string rvalue) : Z :=
  match d !! k with
  | None => 0
  | Some _ => 1
  end.

Definition cmd_incr (k : string) (d : gmap string rvalue)
  : result (Z * gmap string rvalue) :=
  match counter_of d k with
  | Some z =>
      if (z <? ll_max)%Z
      then Ok ((z + 1)%Z, <[k := RString (decimal (z + 1))]> d)
      else Raise ResponseError
  | None => Raise ResponseError
  end.

(** A key read as a list: an absent key is the empty list, a string is a
    type error. *)
Definition list_of (d : gmap string rvalue) (k : string) : option (list string) :=
  match d !! k with
  | None => Some []
  | Some (RList l) => Some l
  | Some (RString _) => None
  end.

Definition cmd_rpush (k v : string) (d : gmap string rvalue)
  : result (Z * gmap string rvalue) :=
  match list_of d k with
  | Some l => Ok (Z.of_nat (length l) + 1, <[k := RList (l ++ [v])]> d)%Z
  | None => Raise ResponseError
  end.

(** [LRANGE]: negative indexes count from the end, the range is clamped. *)
Definition range_of (l : list string) (start stop : Z) : list string :=
  let len := Z.of_nat (length l) in
  let start := if (start <? 0)%Z then Z.max (len + start) 0 else start in
  let stop := if (stop <? 0)%Z then (len + stop)%Z else stop in
  let stop := Z.min stop (len - 1) in
  if (stop <? start)%Z then []
  else take (Z.to_nat (stop - start + 1)) (drop (Z.to_nat start) l).

Definition cmd_lrange (k : string) (start stop : Z) (d : gmap string rvalue)
  : result (list string) :=
  match list_of d k with
  | Some l => Ok (range_of l start stop)
  | None => Raise ResponseError
  end.

End Redis.

(* ===================================================================== *)
(** ** Effects: the server, the entropy source and standard output *)
(* ===================================================================== *)

Record world : Type := {
  db : gmap string Redis.rvalue;
  urandom : nat -> N;
  stdout : list pystr
}.

Definition M (A : Type) : Type := world -> result A * world.

Definition ret {A} (a : A) : M A := fun w => (Ok a, w).

Definition raise {A} (e : pyexc) : M A := fun w => (Raise e, w).

Definition bind {A B} (c : M A) (k : A -> M B) : M B :=
  fun w =>
    match c w with
    | (Ok a, w') => k a w'
    | (Raise e, w') => (Raise e, w')
    end.

Definition lift {A} (r : result A) : M A := fun w => (r, w).

Declare Scope py_scope.
Delimit Scope py_scope with py.
Notation "x <- c1 ;; c2" := (bind c1 (fun x => c2))
  (at level 100, c1 at next level, right associativity) : py_scope.
Notation "c1 ;; c2" := (bind c1 (fun _ => c2))
  (at level 100, right associativity) : py_scope.
Local Open Scope py_scope.

Definition with_db (d : gmap string Redis.rvalue) (w : world) : world :=
  {| db := d; urandom := urandom w; stdout := stdout w |}.

(** The client commands the program uses. *)
Module Client.

Definition set (name value : pyval) : M bool :=
  k <- lift (Redis.encode name);;
  v <- lift (Redis.encode value);;
  fun w => (Ok true, with_db (Redis.cmd_set k v (db w)) w).

Definition get (name : pyval) : M pyval :=
  k <- lift (Redis.encode name);;
  fun w =>
    match Redis.cmd_get k (db w) with
    | Ok None => (Ok PNone, w)
    | Ok (Some b) => (Ok (PBytes b), w)
    | Raise e => (Raise e, w)
    end.

Definition exists_ (name : pyval) : M Z :=
  k <- lift (Redis.encode name);;
  fun w => (Ok (Redis.cmd_exists k (db w)), w).

Definition incr (name : pyval) : M Z :=
  k <- lift (Redis.encode name);;
  fun w =>
    match Redis.cmd_incr k (db w) with
    | Ok (z, d) => (Ok z, with_db d w)
    | Raise e => (Raise e, w)
    end.

Definition rpush (name value : pyval) : M Z :=
  k <- lift (Redis.encode name);;
  v <- lift (Redis.encode value);;
  fun w =>
    match Redis.cmd_rpush k v (db w) with
    | Ok (n, d) => (Ok n, with_db d w)
    | Raise e => (Raise e, w)
    end.

Definition lrange (name : pyval) (start stop : Z) : M (list pyval) :=
  k <- lift (Redis.encode name);;
  fun w =>
    match Redis.cmd_lrange k start stop (db w) with
    | Ok l => (Ok (map PBytes l), w)
    | Raise e => (Raise e, w)
    end.

Definition flushdb : M bool :=
  fun w => (Ok true, with_db ∅ w).

End Client.

(* ===================================================================== *)
(** ** UUIDs *)
(* ===================================================================== *)

Module Uuid.

(** [UUID(bytes=os.urandom(16), version=4)]: 128 random bits with the
    variant and version fields forced. *)
Definition uuid4_int (r : N) : N :=
  let i := N.land r (N.ones 128) in
  let i := N.ldiff i (N.shiftl 0xC000 48) in
  let i := N.lor i (N.shiftl 0x8000 48) in
  let i := N.ldiff i (N.shiftl 0xF000 64) in
  N.lor i (N.shiftl 4 76).

(** [str(uuid)]: 32 hexadecimal digits grouped 8-4-4-4-12. *)
Definition to_str (i : N) : string :=
  let h := hex_fixed 32 i in
  string_of_list_ascii
    (take 8 h ++ "-"%char :: take 4 (drop 8 h) ++ "-"%char :: take 4 (drop 12 h)
       ++ "-"%char :: take 4 (drop 16 h) ++ "-"%char :: drop 20 h).

Definition uuid4 : M N :=
  fun w =>
    (Ok (uuid4_int (urandom w 0)),
     {| db := db w; urandom := fun n => urandom w (S n); stdout := stdout w |}).

End Uuid.

Arguments Uuid.to_str : simpl never.
Arguments Uuid.uuid4_int : simpl never.

(* ===================================================================== *)
(** ** The program: exercise.py *)
(* ===================================================================== *)

(** What the attribute [_redis] of an object may hold: a [redis.Redis]
    client, or some other value. *)
Inductive pyobj : Type :=
| RedisClient
| Plain (v : pyval).

(** An instance carries its attribute [_redis], if it has one.  Attributes
    are assigned in [__init__] only. *)
Record instance : Type := { _redis : option pyobj }.

Definition isinstance_Redis (o : pyobj) : bool :=
  match o with
  | RedisClient => true
  | Plain _ => false
  end.

(** [self._redis]: [AttributeError] when the attribute is missing. *)
Definition getattr_redis (self : instance) : M pyobj :=
  match _redis self with
  | Some o => ret o
  | None => raise AttributeError
  end.

(** A method call [o.cmd(...)] on [self._redis]: only a client has the
    Redis commands. *)
Definition on_client {A} (o : pyobj) (cmd : M A) : M A :=
  match o with
  | RedisClient => cmd
  | Plain _ => raise AttributeError
  end.

Definition kwargs := list (pystr * pyval).

(** A function object: its [__qualname__] and its behaviour when called with
    [self], positional and keyword arguments. *)
Record pyfunc : Type := {
  __qualname__ : pystr;
  __call__ : instance -> list pyval -> kwargs -> M pyval
}.

Section Decorators.
Context {rt : PyRuntime}.

(** [count_calls] (lines 10-34); [@wraps] copies the qualified name. *)
Definition count_calls (method : pyfunc) : pyfunc :=
  {| __qualname__ := __qualname__ method;
     __call__ := fun self args kw =>
       r <- getattr_redis self;;
       (if isinstance_Redis r
        then Client.incr (PStr (__qualname__ method));; ret tt
        else ret tt);;
       __call__ method self args kw |}.

(** [call_history] (lines 37-60). *)
Definition call_history (method : pyfunc) : pyfunc :=
  {| __qualname__ := __qualname__ method;
     __call__ := fun self args kw =>
       let key_inp := __qualname__ method ++ u ":inputs" in
       let key_outp := __qualname__ method ++ u ":outputs" in
       r <- getattr_redis self;;
       (if isinstance_Redis r
        then Client.rpush (PStr key_inp) (PStr (py_str (PTuple args)));; ret tt
        else ret tt);;
       output <- __call__ method self args kw;;
       r <- getattr_redis self;;
       (if isinstance_Redis r
        then Client.rpush (PStr key_outp) output;; ret tt
        else ret tt);;
       ret output |}.

End Decorators.

Module Cache.
Section Methods.
Context {rt : PyRuntime}.

(** [Cache.__init__] (lines 76-81). *)
Definition __init__ : M instance :=
  let self := {| _redis := Some RedisClient |} in
  r <- getattr_redis self;;
  on_client r Client.flushdb;;
  ret self.

(** The body of [store] (lines 95-97). *)
Definition store_body (self : instance) (data : pyval) : M pyval :=
  i <- Uuid.uuid4;;
  let key := u (Uuid.to_str i) in
  r <- getattr_redis self;;
  on_client r (Client.set (PStr key) data);;
  ret (PStr key).

(** Binding of the call's arguments to the one parameter [data]. *)
Definition store_params (args : list pyval) (kw : kwargs) : result pyval :=
  match args, kw with
  | [data], [] => Ok data
  | [], [(name, data)] =>
      if decide (name = u "data") then Ok data else Raise TypeError
  | _, _ => Raise TypeError
  end.

Definition store_function : pyfunc :=
  {| __qualname__ := u "Cache.store";
     __call__ := fun self args kw =>
       data <- lift (store_params args kw);;
       store_body self data |}.

(** [Cache.store], decorated (lines 83-85): the recorder is the inner
    wrapper, the counter the outer one. *)
Definition store : pyfunc := count_calls (call_history store_function).

(** [Cache.get] (lines 99-118). *)
Definition get (self : instance) (key : pyval) (fn : option (pyval -> M pyval))
  : M pyval :=
  r <- getattr_redis self;;
  data <- on_client r (Client.get key);;
  match fn with
  | Some f => f data
  | None => ret data
  end.

(** [Cache.get_str] (lines 120-137). *)
Definition get_str (self : instance) (key : pyval) : M pyval :=
  data <- get self key None;;
  match data with
  | PNone => ret PNone
  | _ => ret (PStr (py_str data))
  end.

(** The names bound in the class body. *)
Definition namespace : list string := ["__init__"; "store"; "get"; "get_str"].

(** [getattr(cache, name)] for a method name: found in the class or
    [AttributeError]. *)
Definition has_method (name : string) : result unit :=
  if existsb (String.eqb name) namespace then Ok tt else Raise AttributeError.

End Methods.
End Cache.

Section Functions.
Context {rt : PyRuntime}.

(** [get_int] (lines 140-158): written with a [self] parameter but defined
    at module level, after the class body. *)
Definition get_int (self : instance) (key : pyval) : M pyval :=
  data <- Cache.get self key None;;
  match data with
  | PNone => ret PNone
  | _ => lift (py_int data)
  end.

(** The names bound at module level. *)
Definition module_namespace : list string :=
  ["count_calls"; "call_history"; "Cache"; "get_int"; "replay"].

(** What [replay] may be handed: [None], a plain function (no [__self__]),
    or a method bound to an instance. *)
Inductive callable : Type :=
| FnNone
| FnFunction (f : pyfunc)
| FnBound (self : instance) (f : pyfunc).

Definition print (line : pystr) : M unit :=
  fun w => (Ok tt, {| db := db w; urandom := urandom w; stdout := stdout w ++ [line] |}).

(** One line of the call log (lines 179-184). *)
Definition replay_line (func_name : pystr) (func_input func_output : pyval) : M unit :=
  i <- lift (py_decode func_input);;
  o <- match func_output with
       | PBytes _ => lift (py_decode func_output)
       | _ => ret (py_str func_output)
       end;;
  print (func_name ++ u "(*" ++ i ++ u ") -> " ++ o).

Fixpoint replay_loop (func_name : pystr) (pairs : list (pyval * pyval)) : M unit :=
  match pairs with
  | [] => ret tt
  | (func_input, func_output) :: rest =>
      replay_line func_name func_input func_output;;
      replay_loop func_name rest
  end.

(** The counter as [replay] reads it (lines 172-174). *)
Definition replay_count (func_name : pystr) : M pyval :=
  e <- Client.exists_ (PStr func_name);;
  if (e =? 0)%Z then ret (PInt 0)
  else v <- Client.get (PStr func_name);; lift (py_int (py_or v (PInt 0))).

(** [replay] (lines 161-184). *)
Definition replay (fn : callable) : M unit :=
  match fn with
  | FnNone | FnFunction _ => ret tt
  | FnBound self f =>
      match _redis self with
      | Some RedisClient =>
          let func_name := __qualname__ f in
          let in_key := func_name ++ u ":inputs" in
          let out_key := func_name ++ u ":outputs" in
          func_call_count <- replay_count func_name;;
          print (func_name ++ u " was called " ++ py_str func_call_count ++ u " times:");;
          func_inputs <- Client.lrange (PStr in_key) 0 (-1);;
          func_outputs <- Client.lrange (PStr out_key) 0 (-1);;
          replay_loop func_name (zip func_inputs func_outputs)
      | _ => ret tt
      end
  end.

End Functions.

(** A runtime for running the program on concrete inputs; the ASCII inputs
    used below never consult it. *)
Definition sample_runtime : PyRuntime :=
  {| unicode_isprintable := fun _ => false;
     int_of_str := fun _ => Raise ValueError;
     int_of_float := fun _ => Raise ValueError;
     printable_encodable := fun c (Hc : false = true) =>
       match Hc in _ = b return (if b then encodable c else True) with
       | eq_refl => I
       end |}.

Definition world0 : world :=
  {| db := ∅; urandom := fun n => N.of_nat n; stdout := [] |}.

Definition run {A} (c : M A) (w : world) : result A := fst (c w).
Definition exec {A} (c : M A) (w : world) : world := snd (c w).

(** ** Vocabulary of the properties *)


(** A sequence of invocations of one method on one instance, whatever each
    of them returns or raises. *)
Fixpoint invoke_all (f : pyfunc) (self : instance)
    (calls : list (list pyval * kwargs)) (w : world) : list (result pyval) * world :=
  match calls with
  | [] => ([], w)
  | (args, kw) :: rest =>
      let '(r, w1) := __call__ f self args kw w in
      let '(rs, w2) := invoke_all f self rest w1 in
      (r :: rs, w2)
  end.

(** The body of [m] leaves the key [k] of the server alone. *)
Definition preserves_key (m : pyfunc) (self : instance) (k : string) : Prop :=
  forall args kw w, db (exec (__call__ m self args kw) w) !! k = db w !! k.

(** The computation [c] changes the server only under keys in [K]. *)
Definition writes_within {A} (c : M A) (K : string -> Prop) : Prop :=
  forall w k, ~ K k -> db (exec c w) !! k = db w !! k.

(** The instrumentation keys of a method are usable: the counter reads as an
    integer below the 64-bit maximum and neither log key holds a string. *)
Definition instrumentation_ready (d : gmap string Redis.rvalue) (kn : string) : Prop :=
  (exists c, Redis.counter_of d kn = Some c /\ (c < Redis.ll_max)%Z)
  /\ Redis.list_of d (kn +:+ ":inputs") <> None
  /\ Redis.list_of d (kn +:+ ":outputs") <> None.

(** The key [store] draws in the world [w]. *)
Definition next_key (w : world) : string := Uuid.to_str (Uuid.uuid4_int (urandom w 0)).

(** What the recorder does once the input entry is written: run the method
    with the call's own arguments, append its output, return it. *)
Definition after_input (m : pyfunc) (self : instance) (args : list pyval)
    (kw : kwargs) (w1 : world) : result pyval * world :=
  match __call__ m self args kw w1 with
  | (Ok output, w2) =>
      match Client.rpush (PStr (__qualname__ m ++ u ":outputs")) output w2 with
      | (Ok _, w3) => (Ok output, w3)
      | (Raise e, w3) => (Raise e, w3)
      end
  | (Raise e, w2) => (Raise e, w2)
  end.

(** The log entries of a call and of a return value. *)
Definition input_entry {rt : PyRuntime} (call : list pyval * kwargs) (e : string) : Prop :=
  Redis.encode (PStr (py_str (PTuple (fst call)))) = Ok e.

Definition output_entry (out : pyval) (e : string) : Prop :=
  Redis.encode out = Ok e.

(** The lines [replay] prints for decoded inputs and outputs. *)
Definition call_line (func_name i o : pystr) : pystr :=
  func_name ++ u "(*" ++ i ++ u ") -> " ++ o.

Definition summary_line (func_name : pystr) (count : Z) : pystr :=
  func_name ++ u " was called " ++ u (decimal count) ++ u " times:".

(** A log entry decodes to a text. *)
Definition decodes (b : string) (t : pystr) : Prop := utf8_decode b = Some t.

(** The world after more lines were printed. *)
Definition printed (w : world) (lines : list pystr) : world :=
  {| db := db w; urandom := urandom w; stdout := stdout w ++ lines |}.

(** ** Sample methods and states *)

Definition cache : instance := {| _redis := Some RedisClient |}.

(** A method whose body always raises. *)
Definition failing_method : pyfunc :=
  {| __qualname__ := u "Cache.fail";
     __call__ := fun _ _ _ => raise (UserException "boom") |}.

(** A method that returns its first keyword argument when it is given one,
    its first positional argument otherwise. *)
Definition echo_method : pyfunc :=
  {| __qualname__ := u "Cache.echo";
     __call__ := fun _ args kw =>
       match kw, args with
       | (_, v) :: _, _ => ret v
       | [], v :: _ => ret v
       | [], [] => ret PNone
       end |}.

Definition recorded_echo {rt : PyRuntime} : pyfunc :=
  count_calls (call_history echo_method).

(** The world a fresh [Cache()] starts in. *)
Definition fresh_world : world := exec Cache.__init__ world0.

(** A server on which the counter key of [Cache.store] holds text that is
    not an integer. *)
Definition corrupt_counter_world : world :=
  with_db {["Cache.store" := Redis.RString "many"]} world0.

(** A server on which [Cache.store] has two recorded inputs and one recorded
    output. *)
Definition uneven_logs_world : world :=
  with_db (<["Cache.store" := Redis.RString "2"]>
             (<["Cache.store:inputs" := Redis.RList ["('a',)"; "('b',)"]]>
                {["Cache.store:outputs" := Redis.RList ["k1"]]})) world0.

(** The byte 0xFF, which is not valid UTF-8. *)
Definition byte_ff : string := String (byte 0xFF) EmptyString.

(** ** Further vocabulary *)

(** A check of every number below a bound. *)
Fixpoint forall_below (n : nat) (p : N -> bool) : bool :=
  match n with
  | O => true
  | S n' => p (N.of_nat n') && forall_below n' p
  end.

(** The transform [lambda d: d.decode("utf-8")] handed to [get]. *)
Definition decode_transform (d : pyval) : M pyval :=
  match py_decode d with
  | Ok t => ret (PStr t)
  | Raise e => raise e
  end.


(** The computation [c] only reads the server: its outcome and the lines it
    prints are fixed by the server's content, and it changes nothing else. *)
Definition reads_only {A} (c : M A) : Prop :=
  forall w, exists r lines,
    forall w', db w' = db w -> c w' = (r, printed w' lines).

(** The instrumentation keys of [Cache.store]. *)
Definition store_instrumentation_key (k : string) : Prop :=
  k = "Cache.store" \/ k = "Cache.store:inputs" \/ k = "Cache.store:outputs".

(** The computation [c] changes the server at most under the key that
    [store] would draw next and under the instrumentation keys of
    [Cache.store]. *)
Definition writes_store_keys {A} (c : M A) : Prop :=
  forall w k, k <> next_key w -> ~ store_instrumentation_key k ->
              db (exec c w) !! k = db w !! k.

(** The computation [c] draws nothing from the entropy source. *)
Definition keeps_entropy {A} (c : M A) : Prop :=
  forall w, urandom (exec c w) = urandom w.

(** The call [f(v)]: one positional argument, no keyword argument. *)
Definition single_arg (v : pyval) : list pyval * kwargs := ([v], []).


(** A server that holds one value stored by someone else. *)
Definition coloured_world : world :=
  with_db {["color" := Redis.RString "blue"]} world0.

Example utf8_encode_ascii : utf8_encode (u "foo") = Some "foo".
Proof. reflexivity. Qed.

Example utf8_encode_e_acute : utf8_encode [0xE9%N] = Some (String (byte 0xC3) (String (byte 0xA9) EmptyString)).
Proof. reflexivity. Qed.

Example utf8_encode_lone_surrogate : utf8_encode [0xD800%N] = None.
Proof. reflexivity. Qed.

Example utf8_decode_e_acute : utf8_decode (String (byte 0xC3) (String (byte 0xA9) EmptyString)) = Some [0xE9%N].
Proof. reflexivity. Qed.

Example utf8_decode_invalid : utf8_decode (String (byte 0xFF) EmptyString) = None.
Proof. reflexivity. Qed.

Example decimal_123 : decimal 123 = "123" /\ decimal (-7) = "-7" /\ decimal 0 = "0".
Proof. repeat split; reflexivity. Qed.

Example int_of_bytes_forms :
  int_of_bytes "123" = Some 123%Z /\ int_of_bytes " -0012 " = Some (-12)%Z
  /\ int_of_bytes "+1_000" = Some 1000%Z /\ int_of_bytes "1__0" = None
  /\ int_of_bytes EmptyString = None /\ int_of_bytes "12a" = None.
Proof. repeat split; reflexivity. Qed.

Example string2ll_forms :
  Redis.string2ll "41" = Some 41%Z /\ Redis.string2ll "041" = None
  /\ Redis.string2ll "+41" = None /\ Redis.string2ll "many" = None
  /\ Redis.string2ll "9223372036854775808" = None.
Proof. repeat split; reflexivity. Qed.

Example repr_bytes_foo : repr_bytes "foo" = u "b'foo'".
Proof. reflexivity. Qed.

Example repr_bytes_escapes : repr_bytes byte_ff = u "b'\xff'".
Proof. reflexivity. Qed.

Example uuid_of_zero_entropy :
  Uuid.to_str (Uuid.uuid4_int 0) = "00000000-0000-4000-8000-000000000000".
Proof. reflexivity. Qed.

Example range_of_forms :
  Redis.range_of ["a"; "b"; "c"] 0 (-1) = ["a"; "b"; "c"]
  /\ Redis.range_of ["a"; "b"; "c"] 1 1 = ["b"]
  /\ Redis.range_of ["a"; "b"; "c"] (-2) 10 = ["b"; "c"]
  /\ Redis.range_of ["a"; "b"; "c"] 2 1 = [].
Proof. repeat split; reflexivity. Qed.

(* ===================================================================== *)
(** ** Decimal text: printing and the two parsers *)
(* ===================================================================== *)

Section DecimalText.

Lemma to_int_not_nil (z : Z) : Z.to_int z <> Pos Nil /\ Z.to_int z <> Neg Nil.
Proof.
  destruct z as [|p|p]; simpl; split; try discriminate;
    intros [= Hp]; exact (DecimalPos.Unsigned.to_uint_nonnil p Hp).
Qed.

Lemma int_of_string_decimal (z : Z) :
  NilZero.int_of_string (decimal z) = Some (Z.to_int z).
Proof.
  unfold decimal. destruct (to_int_not_nil z) as [Hp Hn].
  now apply NilZero.isi.
Qed.

(** The server reads back the counter it wrote. *)
Lemma string2ll_decimal (z : Z) :
  (Redis.ll_min <= z <= Redis.ll_max)%Z -> Redis.string2ll (decimal z) = Some z.
Proof.
  intros [Hlo Hhi]. unfold Redis.string2ll.
  rewrite int_of_string_decimal, DecimalZ.of_to, String.eqb_refl.
  apply Z.leb_le in Hlo, Hhi. now rewrite Hlo, Hhi.
Qed.

Lemma string2ll_canonical (s : string) (z : Z) :
  Redis.string2ll s = Some z -> s = decimal z.
Proof.
  unfold Redis.string2ll. destruct (NilZero.int_of_string s) as [d|]; [|discriminate].
  destruct (String.eqb_spec (decimal (Z.of_int d)) s) as [He|]; simpl; [|discriminate].
  destruct (_ && _); [|discriminate]. intros [= <-]. now symmetry.
Qed.

Lemma digit_facts (a : ascii) :
  is_digit a = true ->
  is_space a = false /\ Ascii.eqb a "_" = false /\ Ascii.eqb a "-" = false
  /\ Ascii.eqb a "+" = false.
Proof.
  destruct a as [[|] [|] [|] [|] [|] [|] [|] [|]]; vm_compute; intros Hd;
    try discriminate Hd; repeat split.
Qed.

Lemma uint_text_digits (d : uint) :
  Forall (fun a => is_digit a = true) (list_ascii_of_string (NilEmpty.string_of_uint d)).
Proof. induction d; simpl; constructor; auto. Qed.

Lemma lstrip_id (l : list ascii) :
  match l with a :: _ => is_space a = false | [] => True end -> lstrip l = l.
Proof. destruct l as [|a l]; simpl; [reflexivity|]. now intros ->. Qed.

Lemma strip_id (l : list ascii) :
  Forall (fun a => is_space a = false) l -> strip l = l.
Proof.
  intros Hl. unfold strip.
  rewrite (lstrip_id l) by (destruct Hl; auto).
  rewrite lstrip_id, rev_involutive; [reflexivity|].
  apply Forall_rev in Hl. destruct Hl; auto.
Qed.

Lemma digits_ok_digits (l : list ascii) (b : bool) :
  Forall (fun a => is_digit a = true) l -> l <> [] -> digits_ok b l = true.
Proof.
  intros Hl. revert b. induction Hl as [|a l Ha Hl IH]; intros b Hne; [congruence|].
  simpl. rewrite Ha. destruct l as [|a' l']; [reflexivity|]. now apply IH.
Qed.

Lemma filter_underscore_digits (l : list ascii) :
  Forall (fun a => is_digit a = true) l ->
  List.filter (fun a => negb (Ascii.eqb a "_")) l = l.
Proof.
  induction 1 as [|a l Ha Hl IH]; [reflexivity|].
  cbn [List.filter]. destruct (digit_facts a Ha) as (_ & -> & _).
  simpl. now rewrite IH.
Qed.

(** Python's [int] reads the digits of a non-empty digit string. *)
Lemma int_of_bytes_uint (d : uint) (neg : bool) :
  d <> Nil ->
  int_of_bytes (if neg then String "-" (NilEmpty.string_of_uint d)
                else NilEmpty.string_of_uint d)
  = Some (if neg then (- Z.of_uint d)%Z else Z.of_uint d).
Proof.
  intros Hd. pose proof (uint_text_digits d) as Hds.
  set (t := NilEmpty.string_of_uint d) in *.
  assert (Hne : list_ascii_of_string t <> []).
  { subst t. destruct d; simpl; congruence. }
  assert (Hsp : Forall (fun a => is_space a = false) (list_ascii_of_string t)).
  { eapply Forall_impl; [exact Hds|]. intros a Ha. now destruct (digit_facts a Ha). }
  unfold int_of_bytes. destruct neg.
  - cbn [list_ascii_of_string]. rewrite strip_id by (constructor; auto).
    simpl. rewrite digits_ok_digits, filter_underscore_digits by auto.
    rewrite string_of_list_ascii_of_string. subst t. now rewrite NilEmpty.usu.
  - rewrite strip_id by auto.
    destruct (list_ascii_of_string t) as [|a r] eqn:Hl; [congruence|].
    assert (Ha : is_digit a = true) by now inversion Hds.
    destruct (digit_facts a Ha) as (_ & _ & -> & ->).
    rewrite digits_ok_digits, filter_underscore_digits by auto.
    rewrite <- Hl, string_of_list_ascii_of_string. subst t. now rewrite NilEmpty.usu.
Qed.

Lemma nilzero_text (d : uint) :
  d <> Nil -> NilZero.string_of_uint d = NilEmpty.string_of_uint d.
Proof. destruct d; intros Hd; [congruence | reflexivity ..]. Qed.

(** [int(repr(z).encode()) == z]. *)
Lemma int_of_bytes_decimal (z : Z) : int_of_bytes (decimal z) = Some z.
Proof.
  destruct z as [|p|p]; [reflexivity| |].
  - unfold decimal. simpl Z.to_int. cbn [NilZero.string_of_int].
    pose proof (DecimalPos.Unsigned.to_uint_nonnil p) as Hn.
    rewrite (nilzero_text _ Hn).
    rewrite (int_of_bytes_uint _ false Hn). unfold Z.of_uint.
    now rewrite DecimalPos.Unsigned.of_to.
  - unfold decimal. simpl Z.to_int. cbn [NilZero.string_of_int].
    pose proof (DecimalPos.Unsigned.to_uint_nonnil p) as Hn.
    rewrite (nilzero_text _ Hn).
    rewrite (int_of_bytes_uint _ true Hn). unfold Z.of_uint.
    now rewrite DecimalPos.Unsigned.of_to.
Qed.

End DecimalText.

(* ===================================================================== *)
(** ** Encoding text: ASCII, suffixes, generated keys *)
(* ===================================================================== *)

Section Encoding.

Lemma utf8_encode_list_app (s1 s2 : pystr) :
  utf8_encode_list (s1 ++ s2) =
  match utf8_encode_list s1, utf8_encode_list s2 with
  | Some b1, Some b2 => Some (b1 ++ b2)
  | _, _ => None
  end.
Proof.
  induction s1 as [|c s1 IH]; simpl.
  - now destruct (utf8_encode_list s2).
  - rewrite IH. destruct (utf8_encode_cp c), (utf8_encode_list s1),
      (utf8_encode_list s2); simpl; try reflexivity.
    now rewrite app_assoc.
Qed.

Lemma utf8_encode_list_ascii (l : list ascii) :
  Forall is_ascii l -> utf8_encode_list (map N_of_ascii l) = Some l.
Proof.
  induction 1 as [|a l Ha Hl IH]; [reflexivity|].
  cbn [map utf8_encode_list]. rewrite IH. unfold utf8_encode_cp.
  apply N.ltb_lt in Ha. rewrite Ha. unfold byte. now rewrite ascii_N_embedding.
Qed.

Lemma string_of_list_ascii_app (l1 l2 : list ascii) :
  string_of_list_ascii (l1 ++ l2) = string_of_list_ascii l1 +:+ string_of_list_ascii l2.
Proof. induction l1 as [|a l1 IH]; simpl; [reflexivity|now rewrite IH]. Qed.

Lemma string_length_app (a b : string) :
  String.length (a +:+ b) = String.length a + String.length b.
Proof. induction a as [|c a IH]; simpl; [reflexivity|now rewrite IH]. Qed.

Lemma string_length_of_list (l : list ascii) :
  String.length (string_of_list_ascii l) = length l.
Proof. induction l as [|a l IH]; simpl; [reflexivity|now rewrite IH]. Qed.

(** A key built by [format] from an encodable name and an ASCII suffix
    encodes to the name's bytes followed by the suffix. *)
Lemma encode_suffix (name : pystr) (kn t : string) :
  Forall is_ascii (list_ascii_of_string t) ->
  Redis.encode (PStr name) = Ok kn ->
  Redis.encode (PStr (name ++ u t)) = Ok (kn +:+ t).
Proof.
  intros Ht. simpl. unfold utf8_encode, u. rewrite utf8_encode_list_app.
  rewrite (utf8_encode_list_ascii _ Ht).
  destruct (utf8_encode_list name) as [b|]; simpl; [|discriminate].
  intros [= <-]. now rewrite string_of_list_ascii_app, string_of_list_ascii_of_string.
Qed.

Lemma inputs_suffix_ascii : Forall is_ascii (list_ascii_of_string ":inputs").
Proof. repeat constructor. Qed.

Lemma outputs_suffix_ascii : Forall is_ascii (list_ascii_of_string ":outputs").
Proof. repeat constructor. Qed.

(** The three instrumentation keys of one method are pairwise distinct. *)
Lemma instrumentation_keys_distinct (kn : string) :
  kn <> kn +:+ ":inputs" /\ kn <> kn +:+ ":outputs"
  /\ kn +:+ ":inputs" <> kn +:+ ":outputs".
Proof.
  repeat split; intros He; apply (f_equal String.length) in He;
    rewrite ?string_length_app in He; simpl in He; lia.
Qed.

Lemma hex_digit_ascii (n : N) : is_ascii (hex_digit n).
Proof.
  unfold hex_digit.
  destruct (nth_in_or_default (N.to_nat n)
              (list_ascii_of_string "0123456789abcdef") "0"%char) as [Hin| ->];
    [|reflexivity].
  revert Hin. generalize (nth (N.to_nat n) (list_ascii_of_string "0123456789abcdef") "0"%char).
  intros a Ha. simpl in Ha.
  repeat (destruct Ha as [<-|Ha]; [reflexivity|]). destruct Ha.
Qed.

Lemma hex_fixed_length (width : nat) (n : N) : length (hex_fixed width n) = width.
Proof.
  revert n. induction width as [|w IH]; intros n; simpl; [reflexivity|].
  rewrite length_app, IH. simpl. lia.
Qed.

Lemma hex_fixed_ascii (width : nat) (n : N) : Forall is_ascii (hex_fixed width n).
Proof.
  revert n. induction width as [|w IH]; intros n; simpl; [constructor|].
  apply Forall_app. split; [apply IH|]. repeat constructor. apply hex_digit_ascii.
Qed.

(** [str(uuid4())] is 36 ASCII characters, so it encodes to itself. *)
Lemma uuid_str_length (i : N) : String.length (Uuid.to_str i) = 36.
Proof.
  unfold Uuid.to_str. rewrite string_length_of_list.
  repeat (rewrite ?length_app, ?length_cons, ?length_take, ?length_drop, ?hex_fixed_length).
  reflexivity.
Qed.

Lemma uuid_str_ascii (i : N) : Forall is_ascii (list_ascii_of_string (Uuid.to_str i)).
Proof.
  unfold Uuid.to_str. rewrite list_ascii_of_string_of_list_ascii.
  generalize (hex_fixed_ascii 32 i). generalize (hex_fixed 32 i). intros h Hh.
  repeat (first [ exact Hh | apply Forall_app; split
                | apply Forall_cons; split; [reflexivity|]
                | apply Forall_take | apply Forall_drop ]).
Qed.

Lemma encode_uuid_key (i : N) :
  Redis.encode (PStr (u (Uuid.to_str i))) = Ok (Uuid.to_str i).
Proof.
  unfold Redis.encode, utf8_encode, u.
  rewrite (utf8_encode_list_ascii _ (uuid_str_ascii i)).
  cbn [option_map]. now rewrite string_of_list_ascii_of_string.
Qed.

End Encoding.

(* ===================================================================== *)
(** ** Laws of the effect monad and of the client commands *)
(* ===================================================================== *)

Section ClientLaws.

Lemma bind_ok {A B} (c : M A) (k : A -> M B) (w w1 : world) (a : A) :
  c w = (Ok a, w1) -> bind c k w = k a w1.
Proof. unfold bind. now intros ->. Qed.

Lemma bind_raise {A B} (c : M A) (k : A -> M B) (w w1 : world) (e : pyexc) :
  c w = (Raise e, w1) -> bind c k w = (Raise e, w1).
Proof. unfold bind. now intros ->. Qed.

Lemma bind_ok_inv {A B} (c : M A) (k : A -> M B) (w w' : world) (b : B) :
  bind c k w = (Ok b, w') ->
  exists a w1, c w = (Ok a, w1) /\ k a w1 = (Ok b, w').
Proof.
  unfold bind. destruct (c w) as [[a|e] w1]; [eauto|discriminate].
Qed.

Lemma bind_assoc {A B C} (c : M A) (k : A -> M B) (k' : B -> M C) (w : world) :
  bind (bind c k) k' w = bind c (fun a => bind (k a) k') w.
Proof. unfold bind. now destruct (c w) as [[a|e] w1]. Qed.

Lemma range_of_all (l : list string) : Redis.range_of l 0 (-1) = l.
Proof.
  unfold Redis.range_of. cbn [Z.ltb Z.compare].
  replace (Z.min (Z.of_nat (length l) + -1) (Z.of_nat (length l) - 1))
    with (Z.of_nat (length l) - 1)%Z by lia.
  destruct (Z.ltb_spec (Z.of_nat (length l) - 1) 0) as [Hlt|Hge].
  - destruct l; [reflexivity|]. simpl length in Hlt. lia.
  - rewrite drop_0. apply take_ge. lia.
Qed.

Lemma list_of_insert (d : gmap string Redis.rvalue) (k : string) (l : list string) :
  Redis.list_of (<[k := Redis.RList l]> d) k = Some l.
Proof. unfold Redis.list_of. now rewrite lookup_insert_eq. Qed.

Lemma list_of_insert_ne (d : gmap string Redis.rvalue) (k k' : string) (v : Redis.rvalue) :
  k <> k' -> Redis.list_of (<[k := v]> d) k' = Redis.list_of d k'.
Proof. intros Hne. unfold Redis.list_of. now rewrite lookup_insert_ne. Qed.

Lemma counter_of_insert (d : gmap string Redis.rvalue) (k : string) (z : Z) :
  (Redis.ll_min <= z <= Redis.ll_max)%Z ->
  Redis.counter_of (<[k := Redis.RString (decimal z)]> d) k = Some z.
Proof.
  intros Hz. unfold Redis.counter_of. rewrite lookup_insert_eq.
  now apply string2ll_decimal.
Qed.

Lemma counter_of_range (d : gmap string Redis.rvalue) (k : string) (z : Z) :
  Redis.counter_of d k = Some z -> (Redis.ll_min <= z <= Redis.ll_max)%Z.
Proof.
  unfold Redis.counter_of. destruct (d !! k) as [[s|l]|].
  - unfold Redis.string2ll. destruct (NilZero.int_of_string s) as [i|]; [|discriminate].
    destruct (String.eqb _ _); [|discriminate]. simpl.
    destruct (Z.leb_spec Redis.ll_min (Z.of_int i)); [|discriminate].
    destruct (Z.leb_spec (Z.of_int i) Redis.ll_max); [|discriminate].
    intros [= <-]. split; assumption.
  - discriminate.
  - intros [= <-]. unfold Redis.ll_min, Redis.ll_max. lia.
Qed.

Lemma incr_ok (name : pyval) (k : string) (w : world) (c : Z) :
  Redis.encode name = Ok k ->
  Redis.counter_of (db w) k = Some c ->
  (c < Redis.ll_max)%Z ->
  Client.incr name w
  = (Ok (c + 1)%Z, with_db (<[k := Redis.RString (decimal (c + 1))]> (db w)) w).
Proof.
  intros Hk Hc Hlt. unfold Client.incr, bind, lift. rewrite Hk.
  unfold Redis.cmd_incr. rewrite Hc. apply Z.ltb_lt in Hlt. now rewrite Hlt.
Qed.

Lemma incr_fail (name : pyval) (k : string) (w : world) :
  Redis.encode name = Ok k ->
  Redis.counter_of (db w) k = None \/ Redis.counter_of (db w) k = Some Redis.ll_max ->
  Client.incr name w = (Raise ResponseError, w).
Proof.
  intros Hk Hc. unfold Client.incr, bind, lift. rewrite Hk.
  unfold Redis.cmd_incr. destruct Hc as [-> | ->]; reflexivity.
Qed.

Lemma rpush_ok (name value : pyval) (k v : string) (l : list string) (w : world) :
  Redis.encode name = Ok k ->
  Redis.encode value = Ok v ->
  Redis.list_of (db w) k = Some l ->
  Client.rpush name value w
  = (Ok (Z.of_nat (length l) + 1)%Z, with_db (<[k := Redis.RList (l ++ [v])]> (db w)) w).
Proof.
  intros Hk Hv Hl. unfold Client.rpush, bind, lift. rewrite Hk, Hv.
  unfold Redis.cmd_rpush. now rewrite Hl.
Qed.

Lemma rpush_ok_inv (name value : pyval) (w w' : world) (n : Z) :
  Client.rpush name value w = (Ok n, w') ->
  exists k v l,
    Redis.encode name = Ok k /\ Redis.encode value = Ok v
    /\ Redis.list_of (db w) k = Some l
    /\ w' = with_db (<[k := Redis.RList (l ++ [v])]> (db w)) w.
Proof.
  unfold Client.rpush, bind, lift, Redis.cmd_rpush.
  destruct (Redis.encode name) as [k|] eqn:Hk; [|discriminate].
  destruct (Redis.encode value) as [v|] eqn:Hv; [|discriminate].
  destruct (Redis.list_of (db w) k) as [l|] eqn:Hl; [|discriminate].
  intros [= <- <-]. exists k, v, l. repeat split; assumption.
Qed.

Lemma lrange_all (name : pyval) (k : string) (l : list string) (w : world) :
  Redis.encode name = Ok k ->
  Redis.list_of (db w) k = Some l ->
  Client.lrange name 0 (-1) w = (Ok (map PBytes l), w).
Proof.
  intros Hk Hl. unfold Client.lrange, bind, lift. rewrite Hk.
  unfold Redis.cmd_lrange. now rewrite Hl, range_of_all.
Qed.

Lemma get_absent (name : pyval) (k : string) (w : world) :
  Redis.encode name = Ok k -> db w !! k = None -> Client.get name w = (Ok PNone, w).
Proof.
  intros Hk Hd. unfold Client.get, bind, lift. rewrite Hk.
  unfold Redis.cmd_get. now rewrite Hd.
Qed.

Lemma get_string (name : pyval) (k s : string) (w : world) :
  Redis.encode name = Ok k -> db w !! k = Some (Redis.RString s) ->
  Client.get name w = (Ok (PBytes s), w).
Proof.
  intros Hk Hd. unfold Client.get, bind, lift. rewrite Hk.
  unfold Redis.cmd_get. now rewrite Hd.
Qed.

Lemma set_ok (name value : pyval) (k v : string) (w : world) :
  Redis.encode name = Ok k -> Redis.encode value = Ok v ->
  Client.set name value w = (Ok true, with_db (<[k := Redis.RString v]> (db w)) w).
Proof. intros Hk Hv. unfold Client.set, bind, lift. now rewrite Hk, Hv. Qed.

End ClientLaws.

(* ===================================================================== *)
(** ** The call counter *)
(* ===================================================================== *)

Section CountCalls.

Variables (m : pyfunc) (self : instance) (kc : string).
Hypothesis live : _redis self = Some RedisClient.
Hypothesis key : Redis.encode (PStr (__qualname__ m)) = Ok kc.

(** One invocation: the increment is done, then the method runs in the
    world that already holds the new count. *)
Lemma count_calls_step (args : list pyval) (kw : kwargs) (w : world) (c : Z) :
  Redis.counter_of (db w) kc = Some c ->
  (c < Redis.ll_max)%Z ->
  __call__ (count_calls m) self args kw w
  = __call__ m self args kw
      (with_db (<[kc := Redis.RString (decimal (c + 1))]> (db w)) w).
Proof.
  intros Hc Hlt. cbn [__call__ count_calls]. unfold getattr_redis. rewrite live.
  cbn [bind ret isinstance_Redis]. rewrite bind_assoc.
  now rewrite (bind_ok _ _ _ _ _ (incr_ok _ _ _ _ key Hc Hlt)).
Qed.

(** A failed increment is raised to the caller; the method is not run. *)
Lemma count_calls_incr_fails (args : list pyval) (kw : kwargs) (w : world) :
  Redis.counter_of (db w) kc = None \/ Redis.counter_of (db w) kc = Some Redis.ll_max ->
  __call__ (count_calls m) self args kw w = (Raise ResponseError, w).
Proof.
  intros Hc. cbn [__call__ count_calls]. unfold getattr_redis. rewrite live.
  cbn [bind ret isinstance_Redis]. rewrite bind_assoc.
  now rewrite (bind_raise _ _ _ _ _ (incr_fail _ _ _ key Hc)).
Qed.

Lemma counter_of_ext (d d' : gmap string Redis.rvalue) (k : string) :
  d !! k = d' !! k -> Redis.counter_of d k = Redis.counter_of d' k.
Proof. unfold Redis.counter_of. now intros ->. Qed.

Hypothesis frame : preserves_key m self kc.

Lemma count_calls_invoke_all (calls : list (list pyval * kwargs)) :
  forall (w : world) (c : Z),
    Redis.counter_of (db w) kc = Some c ->
    (0 <= c)%Z ->
    (c + Z.of_nat (length calls) <= Redis.ll_max)%Z ->
    Redis.counter_of (db (snd (invoke_all (count_calls m) self calls w))) kc
    = Some (c + Z.of_nat (length calls))%Z.
Proof.
  induction calls as [|[args kw] rest IH]; intros w c Hc H0 Hmax.
  - simpl. rewrite Hc. f_equal. lia.
  - cbn [invoke_all]. cbn [length] in Hmax.
    rewrite (count_calls_step args kw w c Hc) by lia.
    set (w1 := with_db _ w).
    pose proof (frame args kw w1) as Hf. unfold exec in Hf.
    destruct (__call__ m self args kw w1) as [r w2]. cbn [snd] in Hf.
    assert (Hc2 : Redis.counter_of (db w2) kc = Some (c + 1)%Z).
    { rewrite (counter_of_ext _ _ _ Hf). subst w1. cbn [db with_db].
      apply counter_of_insert. unfold Redis.ll_min. lia. }
    specialize (IH w2 (c + 1)%Z Hc2).
    destruct (invoke_all (count_calls m) self rest w2) as [rs w3]. cbn [snd] in *.
    rewrite IH by lia. f_equal. cbn [length]. lia.
Qed.

End CountCalls.

(* ===================================================================== *)
(** ** The call recorder *)
(* ===================================================================== *)

Section CallHistory.
Context {rt : PyRuntime}.

Variables (m : pyfunc) (self : instance) (kn : string).
Hypothesis live : _redis self = Some RedisClient.
Hypothesis key : Redis.encode (PStr (__qualname__ m)) = Ok kn.

Let ki : string := kn +:+ ":inputs".
Let ko : string := kn +:+ ":outputs".

Lemma key_inp_encodes : Redis.encode (PStr (__qualname__ m ++ u ":inputs")) = Ok ki.
Proof. apply encode_suffix; [apply inputs_suffix_ascii | exact key]. Qed.

Lemma key_outp_encodes : Redis.encode (PStr (__qualname__ m ++ u ":outputs")) = Ok ko.
Proof. apply encode_suffix; [apply outputs_suffix_ascii | exact key]. Qed.

Lemma call_history_step (args : list pyval) (kw : kwargs) (w : world)
    (ins : list string) (entry : string) :
  Redis.encode (PStr (py_str (PTuple args))) = Ok entry ->
  Redis.list_of (db w) ki = Some ins ->
  __call__ (call_history m) self args kw w
  = after_input m self args kw (with_db (<[ki := Redis.RList (ins ++ [entry])]> (db w)) w).
Proof.
  intros He Hl. cbn [__call__ call_history]. unfold getattr_redis. rewrite live.
  cbn [bind ret isinstance_Redis]. rewrite bind_assoc.
  rewrite (bind_ok _ _ _ _ _ (rpush_ok _ _ _ _ _ _ key_inp_encodes He Hl)).
  cbn [bind ret]. unfold after_input. unfold bind at 1.
  destruct (__call__ m self args kw _) as [[output|e] w2]; [|reflexivity].
  cbn [bind ret isinstance_Redis]. rewrite bind_assoc. unfold bind.
  now destruct (Client.rpush _ output w2) as [[n|e] w3].
Qed.

Lemma call_history_input_refused (args : list pyval) (kw : kwargs) (w : world) (e : pyexc) :
  Redis.encode (PStr (py_str (PTuple args))) = Raise e ->
  __call__ (call_history m) self args kw w = (Raise e, w).
Proof.
  intros He. cbn [__call__ call_history]. unfold getattr_redis. rewrite live.
  cbn [bind ret isinstance_Redis]. rewrite bind_assoc.
  apply bind_raise. unfold Client.rpush, bind, lift.
  now rewrite key_inp_encodes, He.
Qed.

(** The value the wrapper returns is a value the method returned. *)
Lemma call_history_transparent (args : list pyval) (kw : kwargs) (w w' : world) (out : pyval) :
  __call__ (call_history m) self args kw w = (Ok out, w') ->
  exists wa wb, __call__ m self args kw wa = (Ok out, wb).
Proof.
  cbn [__call__ call_history]. intros Hrun.
  apply bind_ok_inv in Hrun as (r & w1 & _ & Hrun).
  apply bind_ok_inv in Hrun as (? & w2 & _ & Hrun).
  apply bind_ok_inv in Hrun as (output & w3 & Hm & Hrun).
  apply bind_ok_inv in Hrun as (r' & w4 & _ & Hrun).
  apply bind_ok_inv in Hrun as (? & w5 & _ & Hrun).
  cbn [ret] in Hrun. injection Hrun as <- _. eauto.
Qed.

Hypothesis frame_in : preserves_key m self ki.
Hypothesis frame_out : preserves_key m self ko.

(** One completed call appends one entry to each log. *)
Lemma call_history_completed (args : list pyval) (kw : kwargs) (w w' : world)
    (ins outs : list string) (out : pyval) :
  Redis.list_of (db w) ki = Some ins ->
  Redis.list_of (db w) ko = Some outs ->
  __call__ (call_history m) self args kw w = (Ok out, w') ->
  exists e_in e_out,
    input_entry (args, kw) e_in /\ output_entry out e_out
    /\ Redis.list_of (db w') ki = Some (ins ++ [e_in])
    /\ Redis.list_of (db w') ko = Some (outs ++ [e_out]).
Proof.
  intros Hin Hout Hrun.
  destruct (instrumentation_keys_distinct kn) as (_ & _ & Hio). fold ki ko in Hio.
  destruct (Redis.encode (PStr (py_str (PTuple args)))) as [e_in|e] eqn:He.
  2:{ rewrite (call_history_input_refused _ _ _ _ He) in Hrun. discriminate. }
  rewrite (call_history_step _ _ _ _ _ He Hin) in Hrun. unfold after_input in Hrun.
  set (w1 := with_db _ w) in Hrun.
  pose proof (frame_in args kw w1) as Hfi. pose proof (frame_out args kw w1) as Hfo.
  unfold exec in Hfi, Hfo.
  destruct (__call__ m self args kw w1) as [[output|e] w2]; [|discriminate].
  cbn [snd] in Hfi, Hfo.
  destruct (Client.rpush _ output w2) as [[n|e] w3] eqn:Hpush; [|discriminate].
  injection Hrun as -> ->.
  apply rpush_ok_inv in Hpush as (k & v & l & Hk & Hv & Hl & ->).
  rewrite key_outp_encodes in Hk. injection Hk as <-.
  assert (Hl2 : Redis.list_of (db w2) ko = Some outs).
  { unfold Redis.list_of. rewrite Hfo. subst w1. cbn [db with_db].
    rewrite lookup_insert_ne by exact Hio. exact Hout. }
  rewrite Hl2 in Hl. injection Hl as <-.
  exists e_in, v. repeat split; [exact He | exact Hv | |].
  - cbn [db with_db]. rewrite list_of_insert_ne by (intros E; now apply Hio).
    unfold Redis.list_of. rewrite Hfi. subst w1. cbn [db with_db].
    now rewrite lookup_insert_eq.
  - cbn [db with_db]. apply list_of_insert.
Qed.

Lemma call_history_invoke_all (calls : list (list pyval * kwargs)) :
  forall (w w' : world) (ins outs : list string) (rets : list pyval),
    Redis.list_of (db w) ki = Some ins ->
    Redis.list_of (db w) ko = Some outs ->
    invoke_all (call_history m) self calls w = (map Ok rets, w') ->
    exists ins' outs',
      Redis.list_of (db w') ki = Some (ins ++ ins')
      /\ Redis.list_of (db w') ko = Some (outs ++ outs')
      /\ Forall2 input_entry calls ins'
      /\ Forall2 output_entry rets outs'.
Proof.
  induction calls as [|[args kw] rest IH]; intros w w' ins outs rets Hin Hout Hrun.
  - cbn [invoke_all] in Hrun. destruct rets; [|discriminate].
    injection Hrun as <-. exists [], []. rewrite !app_nil_r. repeat split; auto.
  - cbn [invoke_all] in Hrun.
    destruct (__call__ (call_history m) self args kw w) as [r w1] eqn:Hcall.
    destruct (invoke_all (call_history m) self rest w1) as [rs w2] eqn:Hrest.
    destruct rets as [|out rets]; [discriminate|].
    cbn [map] in Hrun. injection Hrun as -> -> ->.
    destruct (call_history_completed _ _ _ _ _ _ _ Hin Hout Hcall)
      as (e_in & e_out & Hei & Heo & Hin1 & Hout1).
    destruct (IH _ _ _ _ _ Hin1 Hout1 Hrest) as (ins' & outs' & Hin2 & Hout2 & Hfi & Hfo).
    exists (e_in :: ins'), (e_out :: outs').
    rewrite <- !app_assoc in Hin2, Hout2. repeat split; auto.
Qed.

End CallHistory.

(* ===================================================================== *)
(** ** The text of [repr] can always be sent to the server *)
(* ===================================================================== *)

Section ReprEncodes.
Context {rt : PyRuntime}.

Lemma encodable_small (c : N) : (c < 0x800)%N -> encodable c.
Proof.
  intros Hc. unfold encodable, utf8_encode_cp.
  destruct (c <? 0x80)%N; [discriminate|].
  apply N.ltb_lt in Hc. rewrite Hc. discriminate.
Qed.

Lemma utf8_encode_list_some (s : pystr) :
  Forall encodable s -> exists bs, utf8_encode_list s = Some bs.
Proof.
  induction 1 as [|c s Hc Hs [bs IH]]; [now exists []|].
  cbn [utf8_encode_list]. rewrite IH.
  destruct (utf8_encode_cp c) as [b|] eqn:E; [eauto|now destruct Hc].
Qed.

Lemma codes_encodable (l : list ascii) : Forall encodable (map N_of_ascii l).
Proof.
  induction l as [|a l IH]; cbn [map]; constructor; [|exact IH].
  apply encodable_small. pose proof (N_ascii_bounded a). lia.
Qed.

Lemma u_encodable (t : string) : Forall encodable (u t).
Proof. apply codes_encodable. Qed.

Lemma hex_escape_encodable (c : N) : Forall encodable (hex_escape c).
Proof.
  unfold hex_escape.
  destruct (c <=? 0xFF)%N; [|destruct (c <=? 0xFFFF)%N];
    apply Forall_app; split; auto using u_encodable, codes_encodable.
Qed.

Lemma quote_for_cases (s : list N) : quote_for s = 34%N \/ quote_for s = 39%N.
Proof. unfold quote_for. destruct (_ && _); auto. Qed.

Lemma repr_char_encodable (q c : N) :
  encodable q -> Forall encodable (repr_char q c).
Proof.
  intros Hq. unfold repr_char.
  destruct ((c =? q) || (c =? 92))%N eqn:E1.
  { apply orb_true_iff in E1 as [E|E]; apply N.eqb_eq in E; subst c;
      repeat constructor; auto; now apply encodable_small. }
  destruct (c =? 9)%N; [apply u_encodable|].
  destruct (c =? 10)%N; [apply u_encodable|].
  destruct (c =? 13)%N; [apply u_encodable|].
  destruct ((c <? 32) || (c =? 127))%N; [apply hex_escape_encodable|].
  destruct (c <? 127)%N eqn:E2.
  { apply N.ltb_lt in E2. repeat constructor. apply encodable_small. lia. }
  destruct (unicode_isprintable c) eqn:E3; [|apply hex_escape_encodable].
  repeat constructor. now apply printable_encodable.
Qed.

Lemma repr_byte_encodable (q c : N) :
  encodable q -> encodable c -> Forall encodable (repr_byte q c).
Proof.
  intros Hq Hc. unfold repr_byte.
  repeat match goal with
         | |- context [if ?b then _ else _] => destruct b
         end;
    auto using u_encodable, hex_escape_encodable.
  repeat constructor; auto. apply encodable_small. reflexivity.
Qed.

Lemma quote_encodable (s : list N) : encodable (quote_for s).
Proof. destruct (quote_for_cases s) as [-> | ->]; now apply encodable_small. Qed.

Lemma concat_encodable {A} (f : A -> pystr) (l : list A) (P : A -> Prop) :
  (forall x, P x -> Forall encodable (f x)) -> Forall P l ->
  Forall encodable (concat (map f l)).
Proof.
  intros Hf. induction 1 as [|x l Hx Hl IH]; cbn [map concat]; [constructor|].
  apply Forall_app. auto.
Qed.

Lemma repr_str_encodable (s : pystr) : Forall encodable (repr_str s).
Proof.
  unfold repr_str. pose proof (quote_encodable s) as Hq.
  apply Forall_app; split; [now repeat constructor|].
  apply Forall_app; split; [|now repeat constructor].
  apply (concat_encodable _ _ (fun _ => True)); [|now apply Forall_true].
  intros c _. now apply repr_char_encodable.
Qed.

Lemma repr_bytes_encodable (b : string) : Forall encodable (repr_bytes b).
Proof.
  unfold repr_bytes. pose proof (quote_encodable (bytes_to_list b)) as Hq.
  apply Forall_app; split; [apply u_encodable|].
  apply Forall_app; split; [now repeat constructor|].
  apply Forall_app; split; [|now repeat constructor].
  apply (concat_encodable _ _ encodable); [|apply codes_encodable].
  intros c Hc. now apply repr_byte_encodable.
Qed.

Lemma join_encodable (sep : pystr) (l : list pystr) :
  Forall encodable sep -> Forall (Forall encodable) l ->
  Forall encodable (join sep l).
Proof.
  intros Hsep. induction 1 as [|x l Hx Hl IH]; [constructor|].
  cbn [join]. destruct l as [|y l]; [exact Hx|].
  apply Forall_app; split; [exact Hx|]. apply Forall_app; split; [exact Hsep|exact IH].
Qed.

(** The [repr] of every value is text the client can encode. *)
Lemma py_repr_encodable : forall v : pyval, Forall encodable (py_repr v).
Proof.
  fix py_repr_encodable 1.
  intros v. destruct v as [|b|z|r|s|bs|l|l]; cbn [py_repr].
  - apply u_encodable.
  - destruct b; apply u_encodable.
  - apply u_encodable.
  - apply u_encodable.
  - apply repr_str_encodable.
  - apply repr_bytes_encodable.
  - assert (Hl : Forall (Forall encodable) (map py_repr l)).
    { induction l as [|x l IH]; cbn [map]; constructor; [apply py_repr_encodable|exact IH]. }
    apply Forall_app; split; [apply u_encodable|].
    apply Forall_app; split; [|apply u_encodable].
    apply join_encodable; [apply u_encodable|exact Hl].
  - assert (Hl : Forall (Forall encodable) (map py_repr l)).
    { induction l as [|x l IH]; cbn [map]; constructor; [apply py_repr_encodable|exact IH]. }
    destruct (map py_repr l) as [|r0 [|r1 rs]] eqn:E.
    + apply Forall_app; split; [apply u_encodable|].
      apply Forall_app; split; [constructor|apply u_encodable].
    + apply Forall_app; split; [apply u_encodable|].
      apply Forall_app; split; [|apply u_encodable]. now inversion Hl.
    + apply Forall_app; split; [apply u_encodable|].
      apply Forall_app; split; [|apply u_encodable].
      apply join_encodable; [apply u_encodable|exact Hl].
Qed.

(** The text of the positional tuple can always be appended to a log. *)
Lemma args_entry (args : list pyval) :
  exists entry, Redis.encode (PStr (py_str (PTuple args))) = Ok entry.
Proof.
  destruct (utf8_encode_list_some (py_str (PTuple args))) as [bs Hbs].
  { apply (py_repr_encodable (PTuple args)). }
  cbn [Redis.encode]. unfold utf8_encode. rewrite Hbs. cbn [option_map]. eauto.
Qed.

End ReprEncodes.

(* ===================================================================== *)
(** ** [Cache.store] *)
(* ===================================================================== *)

Section CacheStore.
Context {rt : PyRuntime}.

Variable self : instance.

Lemma uuid_key_fresh (i : N) :
  Uuid.to_str i <> "Cache.store" /\ Uuid.to_str i <> "Cache.store:inputs"
  /\ Uuid.to_str i <> "Cache.store:outputs".
Proof.
  repeat split; intros E; apply (f_equal String.length) in E;
    rewrite uuid_str_length in E; discriminate.
Qed.

Lemma encode_next_key (w : world) :
  Redis.encode (PStr (u (next_key w))) = Ok (next_key w).
Proof. apply encode_uuid_key. Qed.


Hypothesis live : _redis self = Some RedisClient.

Lemma store_body_ok (data : pyval) (b : string) (w : world) :
  Redis.encode data = Ok b ->
  Cache.store_body self data w
  = (Ok (PStr (u (next_key w))),
     {| db := <[next_key w := Redis.RString b]> (db w);
        urandom := fun n => urandom w (S n);
        stdout := stdout w |}).
Proof.
  intros Hb. unfold Cache.store_body, Uuid.uuid4, getattr_redis, next_key.
  rewrite live. cbn [bind ret on_client].
  now rewrite (bind_ok _ _ _ _ _ (set_ok _ _ _ _ _ (encode_uuid_key _) Hb)).
Qed.


(** A call of the decorated [store] on a ready store: the key returned, and
    what the server holds afterwards. *)
Lemma store_ok (v : pyval) (b : string) (w : world) (c : Z) (ins outs : list string) :
  Redis.encode v = Ok b ->
  Redis.counter_of (db w) "Cache.store" = Some c ->
  (c < Redis.ll_max)%Z ->
  Redis.list_of (db w) "Cache.store:inputs" = Some ins ->
  Redis.list_of (db w) "Cache.store:outputs" = Some outs ->
  exists w' entry,
    __call__ Cache.store self [v] [] w = (Ok (PStr (u (next_key w))), w')
    /\ Redis.encode (PStr (py_str (PTuple [v]))) = Ok entry
    /\ db w' = <["Cache.store:outputs" := Redis.RList (outs ++ [next_key w])]>
                 (<[next_key w := Redis.RString b]>
                    (<["Cache.store:inputs" := Redis.RList (ins ++ [entry])]>
                       (<["Cache.store" := Redis.RString (decimal (c + 1))]> (db w)))).
Proof.
  intros Hb Hc Hlt Hin Hout.
  destruct (args_entry [v]) as [entry He].
  destruct (uuid_key_fresh (Uuid.uuid4_int (urandom w 0))) as (Hk1 & Hk2 & Hk3).
  fold (next_key w) in Hk1, Hk2, Hk3.
  unfold Cache.store.
  rewrite (count_calls_step (call_history Cache.store_function) self "Cache.store"
             live eq_refl [v] [] w c Hc Hlt).
  set (w1 := with_db _ w).
  assert (Hin1 : Redis.list_of (db w1) "Cache.store:inputs" = Some ins).
  { subst w1. cbn [db with_db]. now rewrite list_of_insert_ne. }
  rewrite (call_history_step Cache.store_function self "Cache.store"
             live eq_refl [v] [] w1 ins entry He Hin1).
  set (w2 := with_db _ w1).
  unfold after_input. cbn [__call__ Cache.store_function Cache.store_params lift bind].
  rewrite (store_body_ok v b w2 Hb).
  assert (Hnk : next_key w2 = next_key w) by reflexivity. rewrite Hnk.
  set (w3 := {| db := _; urandom := _; stdout := _ |}).
  assert (Hout3 : Redis.list_of (db w3) "Cache.store:outputs" = Some outs).
  { subst w3 w2 w1. cbn [db with_db].
    rewrite !list_of_insert_ne by (try done; congruence). exact Hout. }
  rewrite (rpush_ok _ _ _ _ _ _
             (key_outp_encodes Cache.store_function "Cache.store" eq_refl)
             (encode_next_key w) Hout3).
  eexists _, entry. split; [reflexivity|]. split; [exact He|]. reflexivity.
Qed.

End CacheStore.

(* ===================================================================== *)
(** ** Reading a key that was never stored *)
(* ===================================================================== *)

Section AbsentKey.
Context {rt : PyRuntime}.

Variables (self : instance) (key : pyval) (k : string) (w : world).
Hypothesis live : _redis self = Some RedisClient.
Hypothesis key_bytes : Redis.encode key = Ok k.
Hypothesis absent : db w !! k = None.

Lemma get_absent_raw : Cache.get self key None w = (Ok PNone, w).
Proof.
  unfold Cache.get, getattr_redis. rewrite live. cbn [bind ret on_client].
  now rewrite (bind_ok _ _ _ _ _ (get_absent _ _ _ key_bytes absent)).
Qed.

Lemma get_absent_transform (fn : pyval -> M pyval) :
  Cache.get self key (Some fn) w = fn PNone w.
Proof.
  unfold Cache.get, getattr_redis. rewrite live. cbn [bind ret on_client].
  now rewrite (bind_ok _ _ _ _ _ (get_absent _ _ _ key_bytes absent)).
Qed.

(** Both typed getters hand the absent sentinel through. *)
Lemma getters_propagate_absent :
  Cache.get_str self key w = (Ok PNone, w) /\ get_int self key w = (Ok PNone, w).
Proof.
  unfold Cache.get_str, get_int.
  now rewrite !(bind_ok _ _ _ _ _ get_absent_raw).
Qed.

End AbsentKey.

(* ===================================================================== *)
(** ** Properties of the specification *)
(* ===================================================================== *)


(** C4.  After [n] invocations of a method wrapped by [count_calls], whether
    the body returns or raises, the counter stored under the method's
    qualified name is [n]; each increment is done before the body runs.
    The instance holds a live client, the counter starts absent, the body
    leaves the counter key alone, and [n] fits the server's 64-bit counter. *)
Theorem count_calls_counts_every_invocation
    (m : pyfunc) (self : instance) (kc : string)
    (calls : list (list pyval * kwargs)) (w : world) :
  _redis self = Some RedisClient ->
  Redis.encode (PStr (__qualname__ m)) = Ok kc ->
  preserves_key m self kc ->
  db w !! kc = None ->
  (Z.of_nat (length calls) <= Redis.ll_max)%Z ->
  Redis.counter_of (db (snd (invoke_all (count_calls m) self calls w))) kc
  = Some (Z.of_nat (length calls))
  /\ (forall args kw w0 c,
        Redis.counter_of (db w0) kc = Some c -> (c < Redis.ll_max)%Z ->
        exists w1,
          Client.incr (PStr (__qualname__ m)) w0 = (Ok (c + 1)%Z, w1)
          /\ Redis.counter_of (db w1) kc = Some (c + 1)%Z
          /\ __call__ (count_calls m) self args kw w0 = __call__ m self args kw w1).
Proof.
  intros live key frame Hfresh Hmax. split.
  - rewrite (count_calls_invoke_all m self kc live key frame calls w 0%Z); try lia.
    + reflexivity.
    + unfold Redis.counter_of. now rewrite Hfresh.
  - intros args kw w0 c Hc Hlt. eexists. split; [|split].
    + apply (incr_ok _ _ _ _ key Hc Hlt).
    + cbn [db with_db]. apply counter_of_insert.
      pose proof (counter_of_range _ _ _ Hc). lia.
    + apply (count_calls_step m self kc live key args kw w0 c Hc Hlt).
Qed.

(** C5 (as amended).  After [n] completed calls of a method wrapped by
    [call_history], on a live client, with both logs absent at the start and
    a body that leaves the two log keys alone, the inputs log and the outputs
    log both have length [n]; the [i]-th entry of the outputs log is the
    client's byte serialisation of the [i]-th return value, and the wrapper
    returns the value the method returned. *)
Theorem call_history_logs_serialised {rt : PyRuntime}
    (m : pyfunc) (self : instance) (kn : string)
    (calls : list (list pyval * kwargs)) (rets : list pyval) (w w' : world) :
  _redis self = Some RedisClient ->
  Redis.encode (PStr (__qualname__ m)) = Ok kn ->
  preserves_key m self (kn +:+ ":inputs") ->
  preserves_key m self (kn +:+ ":outputs") ->
  db w !! (kn +:+ ":inputs") = None ->
  db w !! (kn +:+ ":outputs") = None ->
  invoke_all (call_history m) self calls w = (map Ok rets, w') ->
  (exists ins outs,
      Client.lrange (PStr (__qualname__ m ++ u ":inputs")) 0 (-1) w'
      = (Ok (map PBytes ins), w')
      /\ Client.lrange (PStr (__qualname__ m ++ u ":outputs")) 0 (-1) w'
         = (Ok (map PBytes outs), w')
      /\ length ins = length calls
      /\ length outs = length calls
      /\ Forall2 input_entry calls ins
      /\ Forall2 output_entry rets outs)
  /\ (forall args kw w0 w1 out,
        __call__ (call_history m) self args kw w0 = (Ok out, w1) ->
        exists wa wb, __call__ m self args kw wa = (Ok out, wb)).
Proof.
  intros live key Fi Fo Hi Ho Hrun. split.
  - destruct (call_history_invoke_all m self kn live key Fi Fo calls w w' [] [] rets)
      as (ins & outs & Hin & Hout & Hfi & Hfo); try assumption.
    + unfold Redis.list_of. now rewrite Hi.
    + unfold Redis.list_of. now rewrite Ho.
    + exists ins, outs. cbn [app] in Hin, Hout.
      split; [|split; [|split; [|split; [|split]]]]; try assumption.
      * apply (lrange_all _ _ _ _ (key_inp_encodes m kn key) Hin).
      * apply (lrange_all _ _ _ _ (key_outp_encodes m kn key) Hout).
      * symmetry. eapply Forall2_length; exact Hfi.
      * apply Forall2_length in Hfi, Hfo.
        assert (Hn : length rets = length calls).
        { apply (f_equal (fun p => length (fst p))) in Hrun. cbn [fst] in Hrun.
          rewrite length_map in Hrun. rewrite <- Hrun. clear.
          revert w. induction calls as [|[a kw] rest IH]; intros w; [reflexivity|].
          cbn [invoke_all].
          destruct (__call__ (call_history m) self a kw w) as [r w1].
          specialize (IH w1).
          destruct (invoke_all (call_history m) self rest w1) as [rs w2].
          cbn [fst length] in *. now rewrite IH. }
        lia.
  - intros args kw w0 w1 out. apply call_history_transparent.
Qed.

(** C6 (as amended).  The counting step is skipped, without error, only when
    the instance's [_redis] is not a Redis client.  On a client, a failed
    increment (the counter key holds a list or text that is not an integer,
    or the counter is at the 64-bit maximum) is raised to the caller, the
    underlying method is not invoked and nothing is written; a successful
    increment is followed by the method, whose outcome is returned as it is. *)
Theorem count_calls_failed_increment_propagates
    (m : pyfunc) (self : instance) (kc : string)
    (args : list pyval) (kw : kwargs) (w : world) :
  Redis.encode (PStr (__qualname__ m)) = Ok kc ->
  (forall v, _redis self = Some (Plain v) ->
     __call__ (count_calls m) self args kw w = __call__ m self args kw w)
  /\ (_redis self = Some RedisClient ->
      Redis.counter_of (db w) kc = None
      \/ Redis.counter_of (db w) kc = Some Redis.ll_max ->
      __call__ (count_calls m) self args kw w = (Raise ResponseError, w))
  /\ (_redis self = Some RedisClient ->
      forall c, Redis.counter_of (db w) kc = Some c -> (c < Redis.ll_max)%Z ->
      __call__ (count_calls m) self args kw w
      = __call__ m self args kw
          (with_db (<[kc := Redis.RString (decimal (c + 1))]> (db w)) w)).
Proof.
  intros key. split; [|split].
  - intros v Hs. cbn [__call__ count_calls]. unfold getattr_redis. rewrite Hs.
    reflexivity.
  - intros live Hc. now apply (count_calls_incr_fails m self kc live key).
  - intros live c Hc Hlt. now apply (count_calls_step m self kc live key).
Qed.

(** C7 (as amended).  For every key that was never stored, [get(key)]
    without a transform returns the absent sentinel and does not raise; with
    a transform [fn] it returns whatever [fn] makes of the absent sentinel,
    a value or an exception. *)
Theorem get_absent_key
    (self : instance) (key : pyval) (k : string) (w : world) :
  _redis self = Some RedisClient ->
  Redis.encode key = Ok k ->
  db w !! k = None ->
  Cache.get self key None w = (Ok PNone, w)
  /\ forall fn : pyval -> M pyval, Cache.get self key (Some fn) w = fn PNone w.
Proof.
  intros live Hk Habs. split.
  - now apply (get_absent_raw self key k w).
  - intros fn. now apply (get_absent_transform self key k w).
Qed.


Section StoreRefuses.
Context {rt : PyRuntime}.




End StoreRefuses.


(* ===================================================================== *)
(** ** Replay *)
(* ===================================================================== *)

Section Replay.
Context {rt : PyRuntime}.

Lemma printed_nil (w : world) : printed w [] = w.
Proof. destruct w. unfold printed. cbn. now rewrite app_nil_r. Qed.

Lemma printed_cons (w : world) (line : pystr) (lines : list pystr) :
  printed (printed w [line]) lines = printed w (line :: lines).
Proof. unfold printed. cbn. now rewrite <- app_assoc. Qed.

Lemma decimal_nonempty (z : Z) : decimal z <> EmptyString.
Proof.
  intros E. pose proof (int_of_bytes_decimal z) as Hz. rewrite E in Hz. discriminate.
Qed.

(** The count [replay] prints is the counter the server holds, 0 when the
    key is absent. *)
Lemma replay_count_ok (func_name : pystr) (kn : string) (w : world) (c : Z) :
  Redis.encode (PStr func_name) = Ok kn ->
  Redis.counter_of (db w) kn = Some c ->
  replay_count func_name w = (Ok (PInt c), w).
Proof.
  intros Hk Hc. unfold replay_count, Client.exists_.
  rewrite bind_assoc. unfold bind at 1, lift at 1. rewrite Hk.
  cbn [bind]. unfold Redis.cmd_exists.
  unfold Redis.counter_of in Hc.
  destruct (db w !! kn) as [[s|l]|] eqn:Hd; [| discriminate |].
  - apply string2ll_canonical in Hc. subst s. cbn [Z.eqb].
    rewrite (bind_ok _ _ _ _ _ (get_string _ _ _ _ Hk Hd)).
    unfold py_or, py_truthy.
    destruct (decimal c) as [|a s] eqn:E; [now destruct (decimal_nonempty c)|].
    cbn [String.length Nat.eqb negb]. rewrite <- E.
    unfold lift, py_int. now rewrite int_of_bytes_decimal.
  - injection Hc as <-. reflexivity.
Qed.

Lemma replay_loop_ok (func_name : pystr) (ins : list string) :
  forall (outs : list string) (its ots : list pystr) (w : world),
    Forall2 decodes (take (min (length ins) (length outs)) ins) its ->
    Forall2 decodes (take (min (length ins) (length outs)) outs) ots ->
    replay_loop func_name (zip (map PBytes ins) (map PBytes outs)) w
    = (Ok tt, printed w (zip_with (call_line func_name) its ots)).
Proof.
  induction ins as [|i ins IH]; intros outs its ots w Hi Ho.
  - cbn in Hi |- *. inversion Hi; subst. cbn. now rewrite printed_nil.
  - destruct outs as [|o outs].
    + cbn in Ho |- *. inversion Ho; subst.
      rewrite zip_with_nil_r. now rewrite printed_nil.
    + cbn [length min take] in Hi, Ho.
      inversion Hi as [|? it ? its' Hit Hits]; subst.
      inversion Ho as [|? ot ? ots' Hot Hots]; subst.
      cbn [map zip zip_with replay_loop].
      unfold replay_line, py_decode. rewrite Hit, Hot.
      cbn [bind lift print]. fold (call_line func_name it ot).
      rewrite (IH outs its' ots' _ Hits Hots).
      f_equal. apply (printed_cons w).
Qed.

End Replay.

(** C9 (as amended).  For every state in which the counter of the method is
    absent or holds an integer written by the server, and the entries of the
    two logs up to the shorter length are valid UTF-8, [replay] prints the
    summary line with the count (0 when the counter was never incremented),
    then one line per index below the shorter length, in stored order, each
    made of the decoded input and the decoded output; it changes nothing on
    the server and does not fail when the logs have unequal lengths. *)
Theorem replay_renders_decodable_logs {rt : PyRuntime}
    (self : instance) (f : pyfunc) (kn : string) (c : Z)
    (ins outs : list string) (its ots : list pystr) (w : world) :
  _redis self = Some RedisClient ->
  Redis.encode (PStr (__qualname__ f)) = Ok kn ->
  Redis.counter_of (db w) kn = Some c ->
  Redis.list_of (db w) (kn +:+ ":inputs") = Some ins ->
  Redis.list_of (db w) (kn +:+ ":outputs") = Some outs ->
  Forall2 decodes (take (min (length ins) (length outs)) ins) its ->
  Forall2 decodes (take (min (length ins) (length outs)) outs) ots ->
  replay (FnBound self f) w
  = (Ok tt,
     printed w (summary_line (__qualname__ f) c
                  :: zip_with (call_line (__qualname__ f)) its ots)).
Proof.
  intros live key Hc Hin Hout Hi Ho. unfold replay. rewrite live.
  rewrite (bind_ok _ _ _ _ _ (replay_count_ok _ _ _ _ key Hc)).
  cbn [bind print py_str py_repr]. fold (summary_line (__qualname__ f) c).
  set (w1 := {| db := db w; urandom := _; stdout := _ |}).
  rewrite (bind_ok _ _ w1 w1 _
             (lrange_all _ _ _ w1 (encode_suffix _ _ _ inputs_suffix_ascii key) Hin)).
  rewrite (bind_ok _ _ w1 w1 _
             (lrange_all _ _ _ w1 (encode_suffix _ _ _ outputs_suffix_ascii key) Hout)).
  rewrite (replay_loop_ok _ _ _ _ _ w1 Hi Ho).
  f_equal. apply (printed_cons w).
Qed.

(* ===================================================================== *)
(** ** What a computation may write *)
(* ===================================================================== *)

Section Frames.
Context {rt : PyRuntime}.

Lemma writes_ret {A} (a : A) (K : string -> Prop) : writes_within (ret a) K.
Proof. intros w k _. reflexivity. Qed.

Lemma writes_raise {A} (e : pyexc) (K : string -> Prop) : writes_within (@raise A e) K.
Proof. intros w k _. reflexivity. Qed.

Lemma writes_lift {A} (r : result A) (K : string -> Prop) : writes_within (lift r) K.
Proof. intros w k _. reflexivity. Qed.

Lemma writes_bind {A B} (c : M A) (f : A -> M B) (K : string -> Prop) :
  writes_within c K -> (forall a, writes_within (f a) K) -> writes_within (bind c f) K.
Proof.
  intros Hc Hf w k Hk. specialize (Hc w k Hk). unfold exec, bind in *.
  destruct (c w) as [[a|e] w1]; cbn [snd] in *; [|exact Hc].
  rewrite <- Hc. apply (Hf a w1 k Hk).
Qed.

Lemma writes_weaken {A} (c : M A) (K K' : string -> Prop) :
  (forall k, K k -> K' k) -> writes_within c K -> writes_within c K'.
Proof. intros HK Hc w k Hk. apply Hc. intros HKk. apply Hk, HK, HKk. Qed.

Lemma writes_set (name value : pyval) (K : string -> Prop) :
  (forall k, Redis.encode name = Ok k -> K k) ->
  writes_within (Client.set name value) K.
Proof.
  intros HK w k Hk. unfold exec, Client.set, bind, lift.
  destruct (Redis.encode name) as [kn|]; [|reflexivity].
  destruct (Redis.encode value) as [v|]; [|reflexivity].
  cbn [snd db with_db]. unfold Redis.cmd_set.
  apply lookup_insert_ne. intros ->. now apply Hk, HK.
Qed.

Lemma writes_rpush (name value : pyval) (K : string -> Prop) :
  (forall k, Redis.encode name = Ok k -> K k) ->
  writes_within (Client.rpush name value) K.
Proof.
  intros HK w k Hk. unfold exec, Client.rpush, bind, lift.
  destruct (Redis.encode name) as [kn|]; [|reflexivity].
  destruct (Redis.encode value) as [v|]; [|reflexivity].
  unfold Redis.cmd_rpush. destruct (Redis.list_of (db w) kn); [|reflexivity].
  cbn [snd db with_db]. apply lookup_insert_ne. intros ->. now apply Hk, HK.
Qed.

Lemma writes_uuid4 (K : string -> Prop) : writes_within Uuid.uuid4 K.
Proof. intros w k _. reflexivity. Qed.

Lemma writes_getattr (self : instance) (K : string -> Prop) :
  writes_within (getattr_redis self) K.
Proof. unfold getattr_redis. destruct (_redis self); [apply writes_ret | apply writes_raise]. Qed.

(** The undecorated [store] writes only under a generated key. *)
Lemma store_function_writes (self : instance) (args : list pyval) (kw : kwargs) :
  writes_within (__call__ Cache.store_function self args kw)
    (fun k => String.length k = 36).
Proof.
  cbn [__call__ Cache.store_function].
  apply writes_bind; [apply writes_lift|]. intros data. unfold Cache.store_body.
  apply writes_bind; [apply writes_uuid4|]. intros i.
  apply writes_bind; [apply writes_getattr|]. intros r.
  apply writes_bind; [|intros; apply writes_ret].
  destruct r; [|apply writes_raise].
  apply writes_set. intros k. rewrite encode_uuid_key. intros [= <-].
  apply uuid_str_length.
Qed.

(** [call_history] adds the two log keys to what the method writes. *)
Lemma call_history_writes (m : pyfunc) (self : instance) (kn : string)
    (K : string -> Prop) (args : list pyval) (kw : kwargs) :
  Redis.encode (PStr (__qualname__ m)) = Ok kn ->
  (forall a k', writes_within (__call__ m self a k') K) ->
  writes_within (__call__ (call_history m) self args kw)
    (fun k => K k \/ k = kn +:+ ":inputs" \/ k = kn +:+ ":outputs").
Proof.
  intros key Hm. cbn [__call__ call_history].
  apply writes_bind; [apply writes_getattr|]. intros r.
  apply writes_bind.
  { destruct (isinstance_Redis r); [|apply writes_ret].
    apply writes_bind; [|intros; apply writes_ret].
    apply writes_rpush. intros k. rewrite (key_inp_encodes m kn key).
    intros [= <-]. auto. }
  intros _. apply writes_bind.
  { eapply writes_weaken; [|apply Hm]. auto. }
  intros output. apply writes_bind; [apply writes_getattr|]. intros r'.
  apply writes_bind; [|intros; apply writes_ret].
  destruct (isinstance_Redis r'); [|apply writes_ret].
  apply writes_bind; [|intros; apply writes_ret].
  apply writes_rpush. intros k. rewrite (key_outp_encodes m kn key).
  intros [= <-]. auto.
Qed.

(** The frame conditions of the counter and of the recorder hold for the
    method the program decorates. *)
Lemma store_function_preserves (self : instance) (k : string) :
  String.length k <> 36 -> preserves_key Cache.store_function self k.
Proof. intros Hk args kw w. now apply (store_function_writes self args kw w k). Qed.

Lemma recorded_store_preserves_counter (self : instance) :
  preserves_key (call_history Cache.store_function) self "Cache.store".
Proof.
  intros args kw w.
  apply (call_history_writes Cache.store_function self "Cache.store"
           (fun k => String.length k = 36) args kw eq_refl
           (store_function_writes self) w "Cache.store").
  intros [Hk | [Hk | Hk]]; discriminate Hk.
Qed.

(** X15.  After [n] calls of [Cache.store] on a fresh counter, with any arguments
    at all, the counter of [Cache.store] is [n]. *)
Corollary Cache_store_counter (self : instance)
    (calls : list (list pyval * kwargs)) (w : world) :
  _redis self = Some RedisClient ->
  db w !! "Cache.store" = None ->
  (Z.of_nat (length calls) <= Redis.ll_max)%Z ->
  Redis.counter_of (db (snd (invoke_all Cache.store self calls w))) "Cache.store"
  = Some (Z.of_nat (length calls)).
Proof.
  intros live Hfresh Hmax. unfold Cache.store.
  rewrite (count_calls_invoke_all (call_history Cache.store_function) self
             "Cache.store" live eq_refl (recorded_store_preserves_counter self)
             calls w 0%Z); try lia.
  - reflexivity.
  - unfold Redis.counter_of. now rewrite Hfresh.
Qed.

(** After [n] completed calls of the recorded [store], both logs of
    [Cache.store] have [n] entries, and each output entry is the UTF-8
    encoding of the key that the call returned. *)
Corollary recorded_store_logs (self : instance)
    (calls : list (list pyval * kwargs)) (rets : list pyval) (w w' : world) :
  _redis self = Some RedisClient ->
  db w !! "Cache.store:inputs" = None ->
  db w !! "Cache.store:outputs" = None ->
  invoke_all (call_history Cache.store_function) self calls w = (map Ok rets, w') ->
  exists ins outs,
    Redis.list_of (db w') "Cache.store:inputs" = Some ins
    /\ Redis.list_of (db w') "Cache.store:outputs" = Some outs
    /\ Forall2 input_entry calls ins
    /\ Forall2 output_entry rets outs.
Proof.
  intros live Hi Ho Hrun.
  destruct (call_history_invoke_all Cache.store_function self "Cache.store" live
              eq_refl
              (store_function_preserves self ("Cache.store" +:+ ":inputs")
                 ltac:(vm_compute; discriminate))
              (store_function_preserves self ("Cache.store" +:+ ":outputs")
                 ltac:(vm_compute; discriminate))
              calls w w' [] [] rets) as (ins & outs & Hin & Hout & Hfi & Hfo);
    try assumption.
  - change (Redis.list_of (db w) "Cache.store:inputs" = Some []).
    unfold Redis.list_of. now rewrite Hi.
  - change (Redis.list_of (db w) "Cache.store:outputs" = Some []).
    unfold Redis.list_of. now rewrite Ho.
  - exists ins, outs. repeat split; assumption.
Qed.

End Frames.

(* ===================================================================== *)
(** ** UTF-8: decoding what was encoded *)
(* ===================================================================== *)

Section Utf8RoundTrip.

Lemma forall_below_spec (n : nat) (p : N -> bool) :
  forall_below n p = true -> forall x, (x < N.of_nat n)%N -> p x = true.
Proof.
  induction n as [|n IH]; intros Hp x Hx; [lia|].
  cbn [forall_below] in Hp. apply andb_true_iff in Hp as [Hn Hrest].
  destruct (N.eq_dec x (N.of_nat n)) as [->|Hne]; [exact Hn|].
  apply IH; [exact Hrest | lia].
Qed.

Lemma split_low_bits (c k : N) :
  N.lor (N.shiftl (N.shiftr c k) k) (N.land c (N.ones k)) = c.
Proof. rewrite <- N.ldiff_ones_r. apply N.lor_ldiff_and. Qed.

Lemma shiftr_bound (c k q : N) : (c < 2 ^ k * q)%N -> (N.shiftr c k < q)%N.
Proof. intros Hc. rewrite N.shiftr_div_pow2. now apply N.Div0.div_lt_upper_bound. Qed.

Lemma low6_bound (c : N) : (N.land c 0x3F < 64)%N.
Proof. change 0x3F%N with (N.ones 6). rewrite N.land_ones. now apply N.mod_lt. Qed.

(** The continuation byte that carries six bits. *)
Lemma cont_byte (y : N) :
  (y < 64)%N ->
  N_of_ascii (byte (N.lor 0x80 y)) = N.lor 0x80 y
  /\ is_cont (N.lor 0x80 y) = true
  /\ N.land (N.lor 0x80 y) 0x3F = y.
Proof.
  intros Hy.
  assert (Hc : ((N.lor 0x80 y <? 256) && is_cont (N.lor 0x80 y)
                && (N.land (N.lor 0x80 y) 0x3F =? y))%N = true).
  { apply (forall_below_spec 64
             (fun y => ((N.lor 0x80 y <? 256) && is_cont (N.lor 0x80 y)
                        && (N.land (N.lor 0x80 y) 0x3F =? y))%N));
      [vm_compute; reflexivity | exact Hy]. }
  apply andb_true_iff in Hc as [Hc H3]. apply andb_true_iff in Hc as [H1 H2].
  apply N.ltb_lt in H1. apply N.eqb_eq in H3.
  split; [now apply N_ascii_embedding|]. split; assumption.
Qed.

Lemma lead_byte_2 (h : N) :
  (h < 32)%N ->
  let b := N.lor 0xC0 h in
  N_of_ascii (byte b) = b /\ (b <? 0x80)%N = false
  /\ (N.land b 0xE0 =? 0xC0)%N = true /\ N.land b 0x1F = h.
Proof.
  intros Hh b.
  assert (Hc : ((N.lor 0xC0 h <? 256) && negb (N.lor 0xC0 h <? 0x80)
                && (N.land (N.lor 0xC0 h) 0xE0 =? 0xC0)
                && (N.land (N.lor 0xC0 h) 0x1F =? h))%N = true).
  { apply (forall_below_spec 32
             (fun h => ((N.lor 0xC0 h <? 256) && negb (N.lor 0xC0 h <? 0x80)
                        && (N.land (N.lor 0xC0 h) 0xE0 =? 0xC0)
                        && (N.land (N.lor 0xC0 h) 0x1F =? h))%N));
      [vm_compute; reflexivity | exact Hh]. }
  apply andb_true_iff in Hc as [Hc H4]. apply andb_true_iff in Hc as [Hc H3].
  apply andb_true_iff in Hc as [H1 H2].
  apply N.ltb_lt in H1. apply negb_true_iff in H2. apply N.eqb_eq in H4.
  subst b. split; [now apply N_ascii_embedding|]. repeat split; assumption.
Qed.

Lemma lead_byte_3 (h : N) :
  (h < 16)%N ->
  let b := N.lor 0xE0 h in
  N_of_ascii (byte b) = b /\ (b <? 0x80)%N = false
  /\ (N.land b 0xE0 =? 0xC0)%N = false
  /\ (N.land b 0xF0 =? 0xE0)%N = true /\ N.land b 0x0F = h.
Proof.
  intros Hh b.
  assert (Hc : ((N.lor 0xE0 h <? 256) && negb (N.lor 0xE0 h <? 0x80)
                && negb (N.land (N.lor 0xE0 h) 0xE0 =? 0xC0)
                && (N.land (N.lor 0xE0 h) 0xF0 =? 0xE0)
                && (N.land (N.lor 0xE0 h) 0x0F =? h))%N = true).
  { apply (forall_below_spec 16
             (fun h => ((N.lor 0xE0 h <? 256) && negb (N.lor 0xE0 h <? 0x80)
                        && negb (N.land (N.lor 0xE0 h) 0xE0 =? 0xC0)
                        && (N.land (N.lor 0xE0 h) 0xF0 =? 0xE0)
                        && (N.land (N.lor 0xE0 h) 0x0F =? h))%N));
      [vm_compute; reflexivity | exact Hh]. }
  apply andb_true_iff in Hc as [Hc H5]. apply andb_true_iff in Hc as [Hc H4].
  apply andb_true_iff in Hc as [Hc H3]. apply andb_true_iff in Hc as [H1 H2].
  apply N.ltb_lt in H1. apply negb_true_iff in H2, H3. apply N.eqb_eq in H5.
  subst b. split; [now apply N_ascii_embedding|]. repeat split; assumption.
Qed.

Lemma lead_byte_4 (h : N) :
  (h < 8)%N ->
  let b := N.lor 0xF0 h in
  N_of_ascii (byte b) = b /\ (b <? 0x80)%N = false
  /\ (N.land b 0xE0 =? 0xC0)%N = false /\ (N.land b 0xF0 =? 0xE0)%N = false
  /\ (N.land b 0xF8 =? 0xF0)%N = true /\ N.land b 0x07 = h.
Proof.
  intros Hh b.
  assert (Hc : ((N.lor 0xF0 h <? 256) && negb (N.lor 0xF0 h <? 0x80)
                && negb (N.land (N.lor 0xF0 h) 0xE0 =? 0xC0)
                && negb (N.land (N.lor 0xF0 h) 0xF0 =? 0xE0)
                && (N.land (N.lor 0xF0 h) 0xF8 =? 0xF0)
                && (N.land (N.lor 0xF0 h) 0x07 =? h))%N = true).
  { apply (forall_below_spec 8
             (fun h => ((N.lor 0xF0 h <? 256) && negb (N.lor 0xF0 h <? 0x80)
                        && negb (N.land (N.lor 0xF0 h) 0xE0 =? 0xC0)
                        && negb (N.land (N.lor 0xF0 h) 0xF0 =? 0xE0)
                        && (N.land (N.lor 0xF0 h) 0xF8 =? 0xF0)
                        && (N.land (N.lor 0xF0 h) 0x07 =? h))%N));
      [vm_compute; reflexivity | exact Hh]. }
  apply andb_true_iff in Hc as [Hc H6]. apply andb_true_iff in Hc as [Hc H5].
  apply andb_true_iff in Hc as [Hc H4]. apply andb_true_iff in Hc as [Hc H3].
  apply andb_true_iff in Hc as [H1 H2].
  apply N.ltb_lt in H1. apply negb_true_iff in H2, H3, H4. apply N.eqb_eq in H6.
  subst b. split; [now apply N_ascii_embedding|]. repeat split; assumption.
Qed.

(** Six more bits joined below what is already assembled. *)
Lemma join_six (c : N) :
  N.lor (N.shiftl (N.shiftr c 6) 6) (N.land c 0x3F) = c.
Proof. change 0x3F%N with (N.ones 6). apply split_low_bits. Qed.

Lemma join_twelve (c : N) :
  N.lor (N.shiftl (N.shiftr c 12) 12)
    (N.lor (N.shiftl (N.land (N.shiftr c 6) 0x3F) 6) (N.land c 0x3F)) = c.
Proof.
  rewrite N.lor_assoc.
  change 12%N with (6 + 6)%N.
  rewrite <- N.shiftr_shiftr, <- N.shiftl_shiftl, <- N.shiftl_lor.
  now rewrite join_six, join_six.
Qed.

Lemma join_eighteen (c : N) :
  N.lor (N.shiftl (N.shiftr c 18) 18)
    (N.lor (N.shiftl (N.land (N.shiftr c 12) 0x3F) 12)
       (N.lor (N.shiftl (N.land (N.shiftr c 6) 0x3F) 6) (N.land c 0x3F))) = c.
Proof.
  pose proof (join_six c) as H6. pose proof (join_twelve (N.shiftr c 6)) as H12.
  rewrite !N.shiftr_shiftr in H12.
  change (6 + 12)%N with 18%N in H12. change (6 + 6)%N with 12%N in H12.
  rewrite <- H12 in H6 at 1.
  rewrite !N.shiftl_lor, !N.shiftl_shiftl in H6.
  change (12 + 6)%N with 18%N in H6. change (6 + 6)%N with 12%N in H6.
  rewrite !N.lor_assoc in H6. rewrite !N.lor_assoc. exact H6.
Qed.

(** One code point: the decoder reads back what the encoder wrote, whatever
    follows. *)
Lemma utf8_cp_roundtrip (c : N) (bs : list ascii) (rest : list N) :
  utf8_encode_cp c = Some bs ->
  utf8_decode_list (map N_of_ascii bs ++ rest)
  = option_map (cons c) (utf8_decode_list rest).
Proof.
  unfold utf8_encode_cp.
  destruct (c <? 0x80)%N eqn:E1.
  { intros [= <-]. cbn [map app]. unfold byte.
    apply N.ltb_lt in E1. rewrite N_ascii_embedding by lia.
    apply N.ltb_lt in E1. cbn [utf8_decode_list]. now rewrite E1. }
  apply N.ltb_ge in E1.
  destruct (c <? 0x800)%N eqn:E2.
  { apply N.ltb_lt in E2. intros [= <-].
    pose proof (join_six c) as Hjoin.
    pose proof (lead_byte_2 (N.shiftr c 6) (shiftr_bound c 6 32 E2)) as Hlead.
    pose proof (cont_byte (N.land c 0x3F) (low6_bound c)) as (Hb1 & Hc1 & Hy).
    cbv zeta in Hlead. destruct Hlead as (Hb0 & Hlt & He0 & Hh).
    cbn [map app]. rewrite Hb0, Hb1. cbn [utf8_decode_list].
    rewrite Hlt, He0, Hc1, Hh, Hy, Hjoin.
    apply N.leb_le in E1. now rewrite E1. }
  apply N.ltb_ge in E2.
  destruct (c <? 0x10000)%N eqn:E3.
  { apply N.ltb_lt in E3. destruct (is_surrogate c) eqn:Es; [discriminate|].
    intros [= <-].
    pose proof (join_twelve c) as Hjoin.
    pose proof (lead_byte_3 (N.shiftr c 12) (shiftr_bound c 12 16 E3)) as Hlead.
    pose proof (cont_byte (N.land (N.shiftr c 6) 0x3F) (low6_bound _)) as (Hb1 & Hc1 & Hm).
    pose proof (cont_byte (N.land c 0x3F) (low6_bound c)) as (Hb2 & Hc2 & Hy).
    cbv zeta in Hlead. destruct Hlead as (Hb0 & Hlt & He0 & Hf0 & Hh).
    cbn [map app]. rewrite Hb0, Hb1, Hb2. cbn [utf8_decode_list].
    rewrite Hlt, He0, Hf0, Hc1, Hc2, Hh, Hm, Hy, Hjoin, Es.
    apply N.leb_le in E2. now rewrite E2. }
  apply N.ltb_ge in E3.
  destruct (c <? 0x110000)%N eqn:E4; [|discriminate].
  intros [= <-].
  pose proof (join_eighteen c) as Hjoin.
  assert (Hh8 : (N.shiftr c 18 < 8)%N).
  { apply N.ltb_lt in E4. apply shiftr_bound. lia. }
  pose proof (lead_byte_4 (N.shiftr c 18) Hh8) as Hlead.
  pose proof (cont_byte (N.land (N.shiftr c 12) 0x3F) (low6_bound _)) as (Hb1 & Hc1 & Hm1).
  pose proof (cont_byte (N.land (N.shiftr c 6) 0x3F) (low6_bound _)) as (Hb2 & Hc2 & Hm2).
  pose proof (cont_byte (N.land c 0x3F) (low6_bound c)) as (Hb3 & Hc3 & Hy).
  cbv zeta in Hlead. destruct Hlead as (Hb0 & Hlt & He0 & Hf0 & Hg0 & Hh).
  cbn [map app]. rewrite Hb0, Hb1, Hb2, Hb3. cbn [utf8_decode_list].
  rewrite Hlt, He0, Hf0, Hg0, Hc1, Hc2, Hc3, Hh, Hm1, Hm2, Hy, Hjoin, E4.
  apply N.leb_le in E3. now rewrite E3.
Qed.

Lemma utf8_list_roundtrip (s : pystr) (l : list ascii) :
  utf8_encode_list s = Some l -> utf8_decode_list (map N_of_ascii l) = Some s.
Proof.
  revert l. induction s as [|c s IH]; intros l.
  - intros [= <-]. reflexivity.
  - cbn [utf8_encode_list].
    destruct (utf8_encode_cp c) as [bs|] eqn:Ec; [|discriminate].
    destruct (utf8_encode_list s) as [r|] eqn:Es; [|discriminate].
    intros [= <-]. rewrite map_app, (utf8_cp_roundtrip c bs _ Ec).
    now rewrite (IH r eq_refl).
Qed.

(** [s.encode("utf-8").decode("utf-8") == s] for every text that encodes. *)
Lemma utf8_decode_encode (s : pystr) (b : string) :
  utf8_encode s = Some b -> utf8_decode b = Some s.
Proof.
  unfold utf8_encode, utf8_decode.
  destruct (utf8_encode_list s) as [l|] eqn:E; [|discriminate].
  intros [= <-]. rewrite list_ascii_of_string_of_list_ascii.
  now apply utf8_list_roundtrip.
Qed.

End Utf8RoundTrip.

(* ===================================================================== *)
(** ** Reading back what [store] wrote *)
(* ===================================================================== *)

Section ReadBack.
Context {rt : PyRuntime}.

Variables (self : instance) (w : world).
Hypothesis live : _redis self = Some RedisClient.

(** What [get] does on a key that holds a string. *)
Lemma get_on_string (key : pyval) (k b : string) (fn : option (pyval -> M pyval)) :
  Redis.encode key = Ok k ->
  db w !! k = Some (Redis.RString b) ->
  Cache.get self key fn w
  = match fn with
    | Some f => f (PBytes b) w
    | None => (Ok (PBytes b), w)
    end.
Proof.
  intros Hk Hd. unfold Cache.get, getattr_redis. rewrite live.
  cbn [bind ret on_client].
  rewrite (bind_ok _ _ _ _ _ (get_string _ _ _ _ Hk Hd)). now destruct fn.
Qed.

(** What [get] does on a key that holds a list. *)
Lemma get_on_list (key : pyval) (k : string) (l : list string)
    (fn : option (pyval -> M pyval)) :
  Redis.encode key = Ok k ->
  db w !! k = Some (Redis.RList l) ->
  Cache.get self key fn w = (Raise ResponseError, w).
Proof.
  intros Hk Hd. unfold Cache.get, getattr_redis. rewrite live.
  cbn [bind ret on_client]. apply bind_raise.
  unfold Client.get, bind, lift. rewrite Hk. unfold Redis.cmd_get. now rewrite Hd.
Qed.

Hypothesis ready : instrumentation_ready (db w) "Cache.store".

(** A successful [store], and the string its key holds afterwards. *)
Lemma store_then_lookup (v : pyval) (b : string) :
  Redis.encode v = Ok b ->
  exists w',
    __call__ Cache.store self [v] [] w = (Ok (PStr (u (next_key w))), w')
    /\ db w' !! next_key w = Some (Redis.RString b).
Proof.
  intros Hb. destruct ready as ((c & Hc & Hlt) & Hin & Hout).
  destruct (Redis.list_of (db w) "Cache.store:inputs") as [ins|] eqn:Ei;
    [|now destruct Hin].
  destruct (Redis.list_of (db w) "Cache.store:outputs") as [outs|] eqn:Eo;
    [|now destruct Hout].
  destruct (store_ok self live v b w c ins outs Hb Hc Hlt Ei Eo)
    as (w' & entry & Hrun & _ & Hdb).
  exists w'. split; [exact Hrun|].
  destruct (uuid_key_fresh (Uuid.uuid4_int (urandom w 0))) as (_ & _ & Hk3).
  fold (next_key w) in Hk3.
  rewrite Hdb, lookup_insert_ne by congruence. apply lookup_insert_eq.
Qed.

End ReadBack.

(** X1.  For every text [s] that encodes as UTF-8, [get(store(s), fn)] with
    the transform [fn = lambda d: d.decode("utf-8")] returns [s] itself. *)
Theorem store_get_decode_roundtrip {rt : PyRuntime}
    (self : instance) (s : pystr) (b : string) (w : world) :
  _redis self = Some RedisClient ->
  instrumentation_ready (db w) "Cache.store" ->
  utf8_encode s = Some b ->
  exists key w',
    __call__ Cache.store self [PStr s] [] w = (Ok key, w')
    /\ Cache.get self key (Some decode_transform) w' = (Ok (PStr s), w').
Proof.
  intros live ready Hs.
  assert (Hb : Redis.encode (PStr s) = Ok b) by (cbn; now rewrite Hs).
  destruct (store_then_lookup self w live ready (PStr s) b Hb) as (w' & Hrun & Hd).
  exists (PStr (u (next_key w))), w'. split; [exact Hrun|].
  rewrite (get_on_string self w' live _ _ b _ (encode_next_key w) Hd).
  unfold decode_transform, py_decode. now rewrite (utf8_decode_encode s b Hs).
Qed.


(** X3.  For every value [v] the client can serialise, [get_str] on the key
    of [store(v)] returns the [repr] of the bytes stored for [v], a text of
    the form [b'...']; it raises nothing. *)
Theorem store_get_str_gives_repr {rt : PyRuntime}
    (self : instance) (v : pyval) (b : string) (w : world) :
  _redis self = Some RedisClient ->
  instrumentation_ready (db w) "Cache.store" ->
  Redis.encode v = Ok b ->
  exists key w',
    __call__ Cache.store self [v] [] w = (Ok key, w')
    /\ Cache.get_str self key w' = (Ok (PStr (repr_bytes b)), w')
    /\ exists q rest, repr_bytes b = 98%N :: q :: rest /\ (q = 34%N \/ q = 39%N).
Proof.
  intros live ready Hb.
  destruct (store_then_lookup self w live ready v b Hb) as (w' & Hrun & Hd).
  exists (PStr (u (next_key w))), w'. split; [exact Hrun|]. split.
  - unfold Cache.get_str.
    now rewrite (bind_ok _ _ _ _ _
                   (get_on_string self w' live _ _ _ None (encode_next_key w) Hd)).
  - unfold repr_bytes. cbn [u list_ascii_of_string map app].
    eexists _, _. split; [reflexivity|]. apply quote_for_cases.
Qed.

(** X4.  On a key that holds a list, such as a log key of the recorder,
    [get] (with or without a transform), [get_str] and [get_int] raise the
    server's type error and leave the world as it was. *)
Theorem getters_raise_on_list_key {rt : PyRuntime}
    (self : instance) (key : pyval) (k : string) (l : list string) (w : world) :
  _redis self = Some RedisClient ->
  Redis.encode key = Ok k ->
  db w !! k = Some (Redis.RList l) ->
  (forall fn, Cache.get self key fn w = (Raise ResponseError, w))
  /\ Cache.get_str self key w = (Raise ResponseError, w)
  /\ get_int self key w = (Raise ResponseError, w).
Proof.
  intros live Hk Hd. split; [|split].
  - intros fn. now apply (get_on_list self w live key k l).
  - unfold Cache.get_str. apply bind_raise. now apply (get_on_list self w live key k l).
  - unfold get_int. apply bind_raise. now apply (get_on_list self w live key k l).
Qed.


(* ===================================================================== *)
(** ** Replay only reads *)
(* ===================================================================== *)

Section ReplayReads.
Context {rt : PyRuntime}.

Lemma printed_app (w : world) (l1 l2 : list pystr) :
  printed (printed w l1) l2 = printed w (l1 ++ l2).
Proof. unfold printed. cbn. now rewrite <- app_assoc. Qed.

Lemma reads_ret {A} (a : A) : reads_only (ret a).
Proof. intros w. exists (Ok a), []. intros w' _. now rewrite printed_nil. Qed.

Lemma reads_lift {A} (r : result A) : reads_only (lift r).
Proof. intros w. exists r, []. intros w' _. now rewrite printed_nil. Qed.

Lemma reads_print (line : pystr) : reads_only (print line).
Proof. intros w. exists (Ok tt), [line]. intros w' _. reflexivity. Qed.

Lemma reads_bind {A B} (c : M A) (f : A -> M B) :
  reads_only c -> (forall a, reads_only (f a)) -> reads_only (bind c f).
Proof.
  intros Hc Hf w. destruct (Hc w) as (r & lines & Hrun).
  destruct r as [a|e].
  - destruct (Hf a (printed w lines)) as (r2 & lines2 & Hrun2).
    exists r2, (lines ++ lines2). intros w' Hw'.
    rewrite (bind_ok _ _ _ _ _ (Hrun w' Hw')).
    rewrite Hrun2 by (cbn; exact Hw'). now rewrite printed_app.
  - exists (Raise e), lines. intros w' Hw'.
    now rewrite (bind_raise _ _ _ _ _ (Hrun w' Hw')).
Qed.

Lemma reads_get (name : pyval) : reads_only (Client.get name).
Proof.
  unfold Client.get. apply reads_bind; [apply reads_lift|]. intros k w.
  exists (match Redis.cmd_get k (db w) with
          | Ok None => Ok PNone
          | Ok (Some b) => Ok (PBytes b)
          | Raise e => Raise e
          end), [].
  intros w' ->. rewrite printed_nil.
  now destruct (Redis.cmd_get k (db w)) as [[b|]|e].
Qed.

Lemma reads_exists (name : pyval) : reads_only (Client.exists_ name).
Proof.
  unfold Client.exists_. apply reads_bind; [apply reads_lift|]. intros k w.
  exists (Ok (Redis.cmd_exists k (db w))), [].
  intros w' ->. now rewrite printed_nil.
Qed.

Lemma reads_lrange (name : pyval) (start stop : Z) :
  reads_only (Client.lrange name start stop).
Proof.
  unfold Client.lrange. apply reads_bind; [apply reads_lift|]. intros k w.
  exists (match Redis.cmd_lrange k start stop (db w) with
          | Ok l => Ok (map PBytes l)
          | Raise e => Raise e
          end), [].
  intros w' ->. rewrite printed_nil.
  now destruct (Redis.cmd_lrange k start stop (db w)) as [l|e].
Qed.

Lemma reads_replay_loop (func_name : pystr) (pairs : list (pyval * pyval)) :
  reads_only (replay_loop func_name pairs).
Proof.
  induction pairs as [|[i o] rest IH]; cbn [replay_loop]; [apply reads_ret|].
  apply reads_bind; [|intros _; exact IH].
  unfold replay_line. apply reads_bind; [apply reads_lift|]. intros it.
  apply reads_bind; [|intros ot; apply reads_print].
  destruct o; first [apply reads_lift | apply reads_ret].
Qed.

Lemma reads_replay (fn : callable) : reads_only (replay fn).
Proof.
  destruct fn as [|f|self f]; cbn [replay]; try apply reads_ret.
  destruct (_redis self) as [[|v]|]; try apply reads_ret.
  apply reads_bind.
  { unfold replay_count. apply reads_bind; [apply reads_exists|]. intros e.
    destruct (e =? 0)%Z; [apply reads_ret|].
    apply reads_bind; [apply reads_get | intros v; apply reads_lift]. }
  intros c. apply reads_bind; [apply reads_print|]. intros _.
  apply reads_bind; [apply reads_lrange|]. intros ins.
  apply reads_bind; [apply reads_lrange|]. intros outs.
  apply reads_replay_loop.
Qed.

(** The statement of what [replay] prints on decodable logs, for reuse. *)
Lemma replay_prints (self : instance) (f : pyfunc) (kn : string) (c : Z)
    (ins outs : list string) (its ots : list pystr) (w : world) :
  _redis self = Some RedisClient ->
  Redis.encode (PStr (__qualname__ f)) = Ok kn ->
  Redis.counter_of (db w) kn = Some c ->
  Redis.list_of (db w) (kn +:+ ":inputs") = Some ins ->
  Redis.list_of (db w) (kn +:+ ":outputs") = Some outs ->
  Forall2 decodes (take (min (length ins) (length outs)) ins) its ->
  Forall2 decodes (take (min (length ins) (length outs)) outs) ots ->
  replay (FnBound self f) w
  = (Ok tt,
     printed w (summary_line (__qualname__ f) c
                  :: zip_with (call_line (__qualname__ f)) its ots)).
Proof.
  intros live key Hc Hin Hout Hi Ho. unfold replay. rewrite live.
  rewrite (bind_ok _ _ _ _ _ (replay_count_ok _ _ _ _ key Hc)).
  cbn [bind print py_str py_repr]. fold (summary_line (__qualname__ f) c).
  set (w1 := {| db := db w; urandom := _; stdout := _ |}).
  rewrite (bind_ok _ _ w1 w1 _
             (lrange_all _ _ _ w1 (encode_suffix _ _ _ inputs_suffix_ascii key) Hin)).
  rewrite (bind_ok _ _ w1 w1 _
             (lrange_all _ _ _ w1 (encode_suffix _ _ _ outputs_suffix_ascii key) Hout)).
  rewrite (replay_loop_ok _ _ _ _ _ w1 Hi Ho).
  f_equal. apply (printed_cons w).
Qed.

End ReplayReads.

(** X6.  [replay] is a pure read: for every argument and every world, its
    outcome and the lines it prints are determined by the content of the
    server alone, and it leaves the server and the entropy source as they
    were; run again after itself it returns the same outcome and prints the
    same lines once more. *)
Theorem replay_is_a_pure_read {rt : PyRuntime} (fn : callable) (w : world) :
  exists r lines,
    (forall w', db w' = db w -> replay fn w' = (r, printed w' lines))
    /\ db (exec (replay fn) w) = db w
    /\ urandom (exec (replay fn) w) = urandom w
    /\ stdout (exec (replay fn) w) = stdout w ++ lines
    /\ replay fn (exec (replay fn) w) = (r, printed w (lines ++ lines)).
Proof.
  destruct (reads_replay fn w) as (r & lines & Hrun).
  exists r, lines. split; [exact Hrun|].
  unfold exec. rewrite (Hrun w eq_refl). cbn [snd printed db urandom stdout].
  repeat split. rewrite (Hrun (printed w lines) eq_refl). now rewrite printed_app.
Qed.

(** X7.  Whatever the server held before, after [Cache()] every key reads as
    absent and the history of [store] is empty: [get] returns the absent
    sentinel and [replay] prints the 0-times summary and nothing else. *)
Theorem init_starts_from_an_empty_store {rt : PyRuntime}
    (w : world) (key : pyval) (k : string) :
  Redis.encode key = Ok k ->
  exists self w0,
    Cache.__init__ w = (Ok self, w0)
    /\ db w0 = ∅
    /\ Cache.get self key None w0 = (Ok PNone, w0)
    /\ replay (FnBound self Cache.store) w0
       = (Ok tt, printed w0 [summary_line (u "Cache.store") 0]).
Proof.
  intros Hk. exists cache, (with_db ∅ w).
  split; [reflexivity|]. split; [reflexivity|]. split.
  - apply (get_absent_raw cache key k); [reflexivity | exact Hk | apply lookup_empty].
  - apply (replay_prints cache Cache.store "Cache.store" 0 [] [] [] []);
      try reflexivity; constructor.
Qed.

(* ===================================================================== *)
(** ** How the two decorators compose and fail *)
(* ===================================================================== *)

Section DecoratorsCompose.
Context {rt : PyRuntime}.

Variables (m : pyfunc) (self : instance) (kn : string).
Hypothesis live : _redis self = Some RedisClient.
Hypothesis key : Redis.encode (PStr (__qualname__ m)) = Ok kn.



End DecoratorsCompose.




(* ===================================================================== *)
(** ** What [Cache.store] writes *)
(* ===================================================================== *)

Section StoreWrites.
Context {rt : PyRuntime}.

Lemma entropy_ret {A} (a : A) : keeps_entropy (ret a).
Proof. intros w. reflexivity. Qed.

Lemma entropy_raise {A} (e : pyexc) : keeps_entropy (@raise A e).
Proof. intros w. reflexivity. Qed.

Lemma entropy_bind {A B} (c : M A) (f : A -> M B) :
  keeps_entropy c -> (forall a, keeps_entropy (f a)) -> keeps_entropy (bind c f).
Proof.
  intros Hc Hf w. specialize (Hc w). unfold exec, bind in *.
  destruct (c w) as [[a|e] w1]; cbn [snd] in *; [|exact Hc].
  rewrite <- Hc. apply (Hf a w1).
Qed.

Lemma entropy_getattr (self : instance) : keeps_entropy (getattr_redis self).
Proof. unfold getattr_redis. destruct (_redis self); [apply entropy_ret | apply entropy_raise]. Qed.

Lemma entropy_incr (name : pyval) : keeps_entropy (Client.incr name).
Proof.
  intros w. unfold exec, Client.incr, bind, lift.
  destruct (Redis.encode name) as [k|]; [|reflexivity].
  now destruct (Redis.cmd_incr k (db w)) as [[z d]|e].
Qed.

Lemma entropy_rpush (name value : pyval) : keeps_entropy (Client.rpush name value).
Proof.
  intros w. unfold exec, Client.rpush, bind, lift.
  destruct (Redis.encode name) as [k|]; [|reflexivity].
  destruct (Redis.encode value) as [v|]; [|reflexivity].
  now destruct (Redis.cmd_rpush k v (db w)) as [[z d]|e].
Qed.

Lemma writes_incr (name : pyval) (K : string -> Prop) :
  (forall k, Redis.encode name = Ok k -> K k) ->
  writes_within (Client.incr name) K.
Proof.
  intros HK w k Hk. unfold exec, Client.incr, bind, lift.
  destruct (Redis.encode name) as [kn|]; [|reflexivity].
  unfold Redis.cmd_incr. destruct (Redis.counter_of (db w) kn); [|reflexivity].
  destruct (_ <? _)%Z; [|reflexivity].
  cbn [snd db with_db]. apply lookup_insert_ne. intros ->. now apply Hk, HK.
Qed.

(** A step on the instrumentation keys that draws no entropy, then a
    computation that writes the keys of [store]. *)
Lemma store_keys_after {A B} (c : M A) (f : A -> M B) :
  writes_within c store_instrumentation_key -> keeps_entropy c ->
  (forall a, writes_store_keys (f a)) ->
  writes_store_keys (bind c f).
Proof.
  intros Hc He Hf w k Hk1 Hk2. specialize (Hc w k Hk2). specialize (He w).
  unfold exec, bind in *. destruct (c w) as [[a|e] w1]; cbn [snd] in *; [|exact Hc].
  rewrite <- Hc. apply (Hf a w1); [|exact Hk2].
  unfold next_key. rewrite He. exact Hk1.
Qed.

(** A computation that writes the keys of [store], then a step on the
    instrumentation keys. *)
Lemma store_keys_before {A B} (c : M A) (f : A -> M B) :
  writes_store_keys c ->
  (forall a, writes_within (f a) store_instrumentation_key) ->
  writes_store_keys (bind c f).
Proof.
  intros Hc Hf w k Hk1 Hk2. specialize (Hc w k Hk1 Hk2).
  unfold exec, bind in *. destruct (c w) as [[a|e] w1]; cbn [snd] in *; [|exact Hc].
  rewrite <- Hc. apply (Hf a w1 k Hk2).
Qed.

Lemma store_function_writes_its_key (self : instance) (args : list pyval) (kw : kwargs) :
  writes_store_keys (__call__ Cache.store_function self args kw).
Proof.
  intros w k Hk _. unfold exec. cbn [__call__ Cache.store_function].
  unfold bind at 1, lift. destruct (Cache.store_params args kw) as [data|e];
    [|reflexivity].
  unfold Cache.store_body, Uuid.uuid4, getattr_redis. cbn [bind].
  destruct (_redis self) as [[|x]|]; cbn [bind ret raise on_client snd];
    try reflexivity.
  unfold bind, Client.set, lift. rewrite encode_uuid_key.
  destruct (Redis.encode data) as [v|]; [|reflexivity].
  cbn [snd db with_db]. unfold Redis.cmd_set. apply lookup_insert_ne.
  intros E. apply Hk. now rewrite <- E.
Qed.

Lemma store_writes_its_keys (self : instance) (args : list pyval) (kw : kwargs) :
  writes_store_keys (__call__ Cache.store self args kw).
Proof.
  unfold Cache.store. cbn [__call__ count_calls].
  apply store_keys_after; [apply writes_getattr | apply entropy_getattr |]. intros r.
  apply store_keys_after.
  { destruct (isinstance_Redis r); [|apply writes_ret].
    apply writes_bind; [|intros; apply writes_ret].
    apply writes_incr. intros k [= <-]. now left. }
  { destruct (isinstance_Redis r); [|apply entropy_ret].
    apply entropy_bind; [apply entropy_incr | intros; apply entropy_ret]. }
  intros _. cbn [__call__ call_history].
  apply store_keys_after; [apply writes_getattr | apply entropy_getattr |]. intros r1.
  apply store_keys_after.
  { destruct (isinstance_Redis r1); [|apply writes_ret].
    apply writes_bind; [|intros; apply writes_ret].
    apply writes_rpush. intros k [= <-]. right. now left. }
  { destruct (isinstance_Redis r1); [|apply entropy_ret].
    apply entropy_bind; [apply entropy_rpush | intros; apply entropy_ret]. }
  intros _. apply store_keys_before; [apply store_function_writes_its_key|].
  intros output. apply writes_bind; [apply writes_getattr|]. intros r2.
  apply writes_bind; [|intros; apply writes_ret].
  destruct (isinstance_Redis r2); [|apply writes_ret].
  apply writes_bind; [|intros; apply writes_ret].
  apply writes_rpush. intros k [= <-]. right. now right.
Qed.

(** What [get] returns depends on the server only through the key read. *)
Lemma get_depends_on_key (self : instance) (key : pyval) (k : string) (w1 w2 : world) :
  Redis.encode key = Ok k ->
  db w1 !! k = db w2 !! k ->
  run (Cache.get self key None) w1 = run (Cache.get self key None) w2.
Proof.
  intros Hk Hd. unfold run, Cache.get, getattr_redis.
  destruct (_redis self) as [[|x]|]; cbn [bind ret raise on_client]; try reflexivity.
  unfold Client.get, lift. rewrite Hk. unfold Redis.cmd_get. cbv [bind ret].
  rewrite Hd. now destruct (db w2 !! k) as [[s|l]|].
Qed.

End StoreWrites.

(** X11.  A call of [Cache.store], with any arguments, on any instance and
    server, returning or raising, changes the server at most under the key
    it generates and under the three instrumentation keys of [Cache.store];
    so [get] on any other key returns what it returned before the call. *)
Theorem store_leaves_other_keys_alone {rt : PyRuntime}
    (self : instance) (args : list pyval) (kw : kwargs) (w : world)
    (key : pyval) (k : string) :
  Redis.encode key = Ok k ->
  k <> next_key w ->
  ~ store_instrumentation_key k ->
  db (exec (__call__ Cache.store self args kw) w) !! k = db w !! k
  /\ run (Cache.get self key None) (exec (__call__ Cache.store self args kw) w)
     = run (Cache.get self key None) w.
Proof.
  intros Hk Hk1 Hk2.
  pose proof (store_writes_its_keys self args kw w k Hk1 Hk2) as Hd.
  split; [exact Hd|]. now apply (get_depends_on_key self key k).
Qed.

(* ===================================================================== *)
(** ** From [store] to [replay] *)
(* ===================================================================== *)

Section StoresThenReplay.
Context {rt : PyRuntime}.

Variable self : instance.
Hypothesis live : _redis self = Some RedisClient.

(** The instrumentation state after one successful [store]. *)
Lemma store_advances_history (v : pyval) (b : string) (w : world) (c : Z)
    (ins outs : list string) :
  Redis.encode v = Ok b ->
  Redis.counter_of (db w) "Cache.store" = Some c ->
  (c < Redis.ll_max)%Z ->
  Redis.list_of (db w) "Cache.store:inputs" = Some ins ->
  Redis.list_of (db w) "Cache.store:outputs" = Some outs ->
  exists w' entry,
    __call__ Cache.store self [v] [] w = (Ok (PStr (u (next_key w))), w')
    /\ decodes entry (py_str (PTuple [v]))
    /\ decodes (next_key w) (u (next_key w))
    /\ Redis.counter_of (db w') "Cache.store" = Some (c + 1)%Z
    /\ Redis.list_of (db w') "Cache.store:inputs" = Some (ins ++ [entry])
    /\ Redis.list_of (db w') "Cache.store:outputs" = Some (outs ++ [next_key w]).
Proof.
  intros Hb Hc Hlt Hin Hout.
  destruct (store_ok self live v b w c ins outs Hb Hc Hlt Hin Hout)
    as (w' & entry & Hrun & He & Hdb).
  destruct (uuid_key_fresh (Uuid.uuid4_int (urandom w 0))) as (Hk1 & Hk2 & Hk3).
  fold (next_key w) in Hk1, Hk2, Hk3.
  exists w', entry. split; [exact Hrun|]. split; [|split; [|split; [|split]]].
  - cbn [Redis.encode] in He. unfold decodes.
    destruct (utf8_encode (py_str (PTuple [v]))) as [e|] eqn:E; [|discriminate].
    injection He as <-. now apply utf8_decode_encode.
  - pose proof (encode_next_key w) as Hk. cbn [Redis.encode] in Hk. unfold decodes.
    destruct (utf8_encode (u (next_key w))) as [e|] eqn:E; [|discriminate].
    injection Hk as ->. now apply utf8_decode_encode.
  - rewrite Hdb. unfold Redis.counter_of.
    rewrite !lookup_insert_ne by (try done; congruence).
    rewrite lookup_insert_eq. apply string2ll_decimal.
    pose proof (counter_of_range _ _ _ Hc). lia.
  - rewrite Hdb. unfold Redis.list_of.
    rewrite !lookup_insert_ne by (try done; congruence).
    now rewrite lookup_insert_eq.
  - rewrite Hdb. apply list_of_insert.
Qed.

Lemma stores_advance_history (vs : list pyval) :
  forall (w : world) (c : Z) (ins outs : list string),
    Redis.counter_of (db w) "Cache.store" = Some c ->
    (c + Z.of_nat (length vs) <= Redis.ll_max)%Z ->
    Redis.list_of (db w) "Cache.store:inputs" = Some ins ->
    Redis.list_of (db w) "Cache.store:outputs" = Some outs ->
    Forall (fun v => exists b, Redis.encode v = Ok b) vs ->
    exists keys w' ins',
      invoke_all Cache.store self (map single_arg vs) w
      = (map (fun k => Ok (PStr (u k))) keys, w')
      /\ length keys = length vs
      /\ Redis.counter_of (db w') "Cache.store" = Some (c + Z.of_nat (length vs))%Z
      /\ Redis.list_of (db w') "Cache.store:inputs" = Some (ins ++ ins')
      /\ Redis.list_of (db w') "Cache.store:outputs" = Some (outs ++ keys)
      /\ Forall2 decodes ins' (map (fun v => py_str (PTuple [v])) vs)
      /\ Forall2 decodes keys (map u keys).
Proof.
  induction vs as [|v vs IH]; intros w c ins outs Hc Hmax Hin Hout Hvs.
  - exists [], w, []. cbn [map invoke_all length]. rewrite !app_nil_r.
    repeat split; auto. rewrite Hc. f_equal. lia.
  - inversion Hvs as [|? ? [b Hb] Hrest]; subst. cbn [length] in Hmax.
    destruct (store_advances_history v b w c ins outs Hb Hc ltac:(lia) Hin Hout)
      as (w1 & entry & Hrun & Hde & Hdk & Hc1 & Hin1 & Hout1).
    destruct (IH w1 (c + 1)%Z _ _ Hc1 ltac:(lia) Hin1 Hout1 Hrest)
      as (keys & w' & ins' & Hruns & Hlen & Hc' & Hin' & Hout' & Hfi & Hfo).
    exists (next_key w :: keys), w', (entry :: ins').
    cbn [map invoke_all]. unfold single_arg at 1.
    rewrite Hrun. cbv beta iota. rewrite Hruns. cbn [length].
    rewrite <- !app_assoc in Hin', Hout'. cbn [app] in Hin', Hout'.
    repeat split; auto; try (constructor; assumption).
    rewrite Hc'. f_equal. lia.
Qed.

End StoresThenReplay.

(** X12.  After any sequence of [store] calls with serialisable values on a
    live client whose instrumentation keys start absent, every call returns
    a key, and [replay] of [store] prints the summary line with the number
    of calls followed by one line per call, in call order, that pairs the
    text of the call's positional tuple with the key the call returned. *)
Theorem replay_after_stores {rt : PyRuntime}
    (self : instance) (vs : list pyval) (w : world) :
  _redis self = Some RedisClient ->
  db w !! "Cache.store" = None ->
  db w !! "Cache.store:inputs" = None ->
  db w !! "Cache.store:outputs" = None ->
  Forall (fun v => exists b, Redis.encode v = Ok b) vs ->
  (Z.of_nat (length vs) <= Redis.ll_max)%Z ->
  exists keys w',
    invoke_all Cache.store self (map single_arg vs) w
    = (map (fun k => Ok (PStr (u k))) keys, w')
    /\ length keys = length vs
    /\ replay (FnBound self Cache.store) w'
       = (Ok tt,
          printed w'
            (summary_line (u "Cache.store") (Z.of_nat (length vs))
               :: zip_with (call_line (u "Cache.store"))
                    (map (fun v => py_str (PTuple [v])) vs) (map u keys))).
Proof.
  intros live Hc Hi Ho Hvs Hmax.
  destruct (stores_advance_history self live vs w 0%Z [] [])
    as (keys & w' & ins' & Hrun & Hlen & Hc' & Hin' & Hout' & Hfi & Hfo);
    try assumption.
  - unfold Redis.counter_of. now rewrite Hc.
  - unfold Redis.list_of. now rewrite Hi.
  - unfold Redis.list_of. now rewrite Ho.
  - exists keys, w'. split; [exact Hrun|]. split; [exact Hlen|].
    cbn [app] in Hin', Hout'.
    assert (Hn : length ins' = length keys).
    { apply Forall2_length in Hfi. rewrite length_map in Hfi. lia. }
    apply (replay_prints self Cache.store "Cache.store" _ ins' keys);
      try assumption; try reflexivity.
    + rewrite Hn, Nat.min_id, <- Hn, firstn_all. exact Hfi.
    + rewrite Hn, Nat.min_id, firstn_all. exact Hfo.
Qed.

Section RefusedThenStored.
Context {rt : PyRuntime}.

Variable self : instance.
Hypothesis live : _redis self = Some RedisClient.


End RefusedThenStored.



(* ===================================================================== *)
(** ** Concrete runs *)
(* ===================================================================== *)

#[local] Existing Instance sample_runtime.



(** C2.  The scenario on a fresh cache: [get_str] on the key of
    [store("foo")] returns the text [b'foo'] (the [repr] of the bytes read
    back), not ["foo"]; the module-level function [get_int] returns 123 for
    the key of [store(123)], but it is not an attribute of the cache. *)
Theorem scenario_get_str_returns_bytes_repr :
  let r1 := __call__ Cache.store cache [PStr (u "foo")] [] fresh_world in
  let r2 := __call__ Cache.store cache [PInt 123] [] (snd r1) in
  exists k1 k2,
    fst r1 = Ok k1 /\ fst r2 = Ok k2
    /\ run (Cache.get_str cache k1) (snd r2) = Ok (PStr (u "b'foo'"))
    /\ PStr (u "b'foo'") <> PStr (u "foo")
    /\ run (get_int cache k2) (snd r2) = Ok (PInt 123)
    /\ Cache.has_method "get_int" = Raise AttributeError.
Proof.
  exists (PStr (u "00000000-0000-4000-8000-000000000000")),
         (PStr (u "00000000-0000-4000-8000-000000000001")).
  vm_compute. repeat split. discriminate.
Qed.

(** C3.  [get_int] is bound at module level, not in the class [Cache], so a
    cache has no method of that name; called as a plain function it hands
    the absent sentinel through, as the method [get_str] does. *)
Theorem get_int_is_not_a_Cache_method :
  Cache.has_method "get_int" = Raise AttributeError
  /\ In "get_int" module_namespace
  /\ Cache.has_method "get_str" = Ok tt
  /\ run (Cache.get_str cache (PStr (u "no-such-key"))) fresh_world = Ok PNone
  /\ run (get_int cache (PStr (u "no-such-key"))) fresh_world = Ok PNone.
Proof. vm_compute. repeat split. auto. Qed.

(** Three invocations of a method that always raises are all counted. *)
Lemma count_calls_counts_every_invocation_witness :
  Redis.counter_of
    (db (snd (invoke_all (count_calls failing_method) cache
                [([], []); ([PInt 1], []); ([], [(u "k", PNone)])] world0)))
    "Cache.fail"
  = Some 3%Z.
Proof.
  apply (count_calls_counts_every_invocation failing_method cache "Cache.fail"
           [([], []); ([PInt 1], []); ([], [(u "k", PNone)])] world0).
  - reflexivity.
  - reflexivity.
  - intros args kw w. reflexivity.
  - reflexivity.
  - vm_compute. discriminate.
Defined.

(** C5, as stated, fails: after one [store("foo")] on a fresh cache the
    entry of the outputs log is a byte sequence, while the call returned a
    text; the two are different values. *)
Lemma outputs_log_entry_is_not_the_return_value :
  let r := __call__ Cache.store cache [PStr (u "foo")] [] fresh_world in
  exists key entry,
    fst r = Ok key
    /\ run (Client.lrange (PStr (u "Cache.store:outputs")) 0 (-1)) (snd r) = Ok [entry]
    /\ entry <> key.
Proof.
  exists (PStr (u "00000000-0000-4000-8000-000000000000")),
         (PBytes "00000000-0000-4000-8000-000000000000").
  vm_compute. repeat split. discriminate.
Qed.

(** Two recorded calls of the echo method. *)
Lemma call_history_logs_serialised_witness :
  exists ins outs : list string,
    length ins = 2 /\ length outs = 2
    /\ Forall2 output_entry [PInt 5; PStr (u "x")] outs.
Proof.
  destruct (call_history_logs_serialised echo_method cache "Cache.echo"
              [([PInt 5], []); ([PStr (u "x")], [])] [PInt 5; PStr (u "x")] world0
              (snd (invoke_all (call_history echo_method) cache
                      [([PInt 5], []); ([PStr (u "x")], [])] world0)))
    as [(ins & outs & _ & _ & Hli & Hlo & _ & Hfo) _].
  - reflexivity.
  - reflexivity.
  - intros args kw w. destruct kw as [|[? ?] ?], args; reflexivity.
  - intros args kw w. destruct kw as [|[? ?] ?], args; reflexivity.
  - reflexivity.
  - reflexivity.
  - vm_compute. reflexivity.
  - exists ins, outs. split; [exact Hli|]. split; [exact Hlo|exact Hfo].
Defined.

(** C6, as stated, fails: when the counter key of [Cache.store] holds text
    that is not an integer, [store("foo")] raises the server's error and
    leaves the server as it was: the recorder and the body of [store], which
    on their own return a key, are not run. *)
Lemma count_calls_raises_on_failed_increment :
  run (__call__ Cache.store cache [PStr (u "foo")] []) corrupt_counter_world
  = Raise ResponseError
  /\ db (exec (__call__ Cache.store cache [PStr (u "foo")] []) corrupt_counter_world)
     = db corrupt_counter_world
  /\ run (__call__ (call_history Cache.store_function) cache [PStr (u "foo")] [])
       corrupt_counter_world
     = Ok (PStr (u "00000000-0000-4000-8000-000000000000")).
Proof. vm_compute. repeat split. Qed.

(** The wrapper of [store] on the server whose counter key holds text. *)
Lemma count_calls_failed_increment_propagates_witness :
  __call__ Cache.store cache [PStr (u "foo")] [] corrupt_counter_world
  = (Raise ResponseError, corrupt_counter_world).
Proof.
  destruct (count_calls_failed_increment_propagates
              (call_history Cache.store_function) cache "Cache.store"
              [PStr (u "foo")] [] corrupt_counter_world) as (_ & Hfail & _).
  - reflexivity.
  - apply Hfail; [reflexivity | left; reflexivity].
Defined.

(** C7, as stated, fails: on a key that was never stored, [get] with the
    transform [int] raises [TypeError], and with the transform [str] it
    returns the text [None] rather than the absent sentinel. *)
Lemma get_with_transform_on_absent_key :
  run (Cache.get cache (PStr (u "never-stored")) (Some (fun d => lift (py_int d))))
    fresh_world = Raise TypeError
  /\ run (Cache.get cache (PStr (u "never-stored"))
            (Some (fun d => ret (PStr (py_str d))))) fresh_world
     = Ok (PStr (u "None"))
  /\ PStr (u "None") <> PNone.
Proof. vm_compute. repeat split. discriminate. Qed.

(** A key never stored in a fresh cache. *)
Lemma get_absent_key_witness :
  Cache.get cache (PStr (u "never-stored")) None fresh_world = (Ok PNone, fresh_world)
  /\ forall fn : pyval -> M pyval,
       Cache.get cache (PStr (u "never-stored")) (Some fn) fresh_world
       = fn PNone fresh_world.
Proof.
  apply (get_absent_key cache (PStr (u "never-stored")) "never-stored" fresh_world);
    reflexivity.
Defined.


(** C9, as stated, fails: a recorded method that returned the byte 0xFF
    leaves an outputs log entry that is not valid UTF-8; [replay] prints the
    summary line and then raises instead of printing the call line. *)
Lemma replay_raises_on_undecodable_output :
  let w := exec (__call__ recorded_echo cache [PBytes byte_ff] []) fresh_world in
  run (__call__ recorded_echo cache [PBytes byte_ff] []) fresh_world
  = Ok (PBytes byte_ff)
  /\ run (replay (FnBound cache recorded_echo)) w = Raise UnicodeDecodeError
  /\ stdout (exec (replay (FnBound cache recorded_echo)) w)
     = [u "Cache.echo was called 1 times:"].
Proof. vm_compute. repeat split. Qed.

(** Two recorded inputs and one recorded output: one call line. *)
Lemma replay_renders_decodable_logs_witness :
  replay (FnBound cache Cache.store) uneven_logs_world
  = (Ok tt,
     printed uneven_logs_world
       [u "Cache.store was called 2 times:"; u "Cache.store(*('a',)) -> k1"]).
Proof.
  apply (replay_renders_decodable_logs cache Cache.store "Cache.store" 2
           ["('a',)"; "('b',)"] ["k1"] [u "('a',)"] [u "k1"] uneven_logs_world).
  - reflexivity.
  - reflexivity.
  - reflexivity.
  - reflexivity.
  - reflexivity.
  - repeat constructor.
  - repeat constructor.
Defined.


(** The text logged for a call: positional arguments only. *)
Example str_of_args :
  py_str (PTuple [PStr (u "foo")]) = u "('foo',)"
  /\ py_str (PTuple [PInt 123]) = u "(123,)"
  /\ py_str (PTuple [PInt 1; PBytes "x"; PNone]) = u "(1, b'x', None)"
  /\ py_str (PTuple []) = u "()"
  /\ py_str (PTuple [PStr (u "it's")])
     = [40; 34; 105; 116; 39; 115; 34; 44; 41]%N.
Proof. repeat split; reflexivity. Qed.

(** A call with a keyword argument: the method sees it, the history and the
    replay show the positional tuple only. *)
Example kwargs_absent_from_history :
  let call := __call__ recorded_echo cache [PStr (u "a")] [(u "tag", PStr (u "secret"))] in
  let w := exec call fresh_world in
  run call fresh_world = Ok (PStr (u "secret"))
  /\ run (Client.lrange (PStr (u "Cache.echo:inputs")) 0 (-1)) w = Ok [PBytes "('a',)"]
  /\ stdout (exec (replay (FnBound cache recorded_echo)) w)
     = [u "Cache.echo was called 1 times:"; u "Cache.echo(*('a',)) -> secret"].
Proof. vm_compute. repeat split. Qed.

(** Replay on a method that was never called. *)
Example replay_never_called :
  stdout (exec (replay (FnBound cache Cache.store)) fresh_world)
  = [u "Cache.store was called 0 times:"]
  /\ run (replay (FnBound cache Cache.store)) fresh_world = Ok tt.
Proof. vm_compute. repeat split. Qed.

(** Replay of the scenario: two calls of [store], in order. *)
Example replay_scenario :
  let w1 := exec (__call__ Cache.store cache [PStr (u "foo")] []) fresh_world in
  let w2 := exec (__call__ Cache.store cache [PInt 123] []) w1 in
  stdout (exec (replay (FnBound cache Cache.store)) w2)
  = [u "Cache.store was called 2 times:";
     u "Cache.store(*('foo',)) -> 00000000-0000-4000-8000-000000000000";
     u "Cache.store(*(123,)) -> 00000000-0000-4000-8000-000000000001"].
Proof. vm_compute. reflexivity. Qed.

(** ** Runs of the further properties *)

(** The text ["foo"] comes back from a fresh cache through the decoding
    transform. *)
Lemma store_get_decode_roundtrip_witness :
  exists key w',
    __call__ Cache.store cache [PStr (u "foo")] [] fresh_world = (Ok key, w')
    /\ Cache.get cache key (Some decode_transform) w' = (Ok (PStr (u "foo")), w').
Proof.
  apply (store_get_decode_roundtrip cache (u "foo") "foo" fresh_world).
  - reflexivity.
  - split; [exists 0%Z; split; reflexivity|]. split; vm_compute; discriminate.
  - reflexivity.
Defined.


(** [get_str] on the key of [store(123)]. *)
Lemma store_get_str_gives_repr_witness :
  exists key w',
    __call__ Cache.store cache [PInt 123] [] fresh_world = (Ok key, w')
    /\ Cache.get_str cache key w' = (Ok (PStr (repr_bytes "123")), w')
    /\ exists q rest, repr_bytes "123" = 98%N :: q :: rest /\ (q = 34%N \/ q = 39%N).
Proof.
  apply (store_get_str_gives_repr cache (PInt 123) "123" fresh_world).
  - reflexivity.
  - split; [exists 0%Z; split; reflexivity|]. split; vm_compute; discriminate.
  - reflexivity.
Defined.

(** The getters on the inputs log of [Cache.store]. *)
Lemma getters_raise_on_list_key_witness :
  (forall fn, Cache.get cache (PStr (u "Cache.store:inputs")) fn uneven_logs_world
              = (Raise ResponseError, uneven_logs_world))
  /\ Cache.get_str cache (PStr (u "Cache.store:inputs")) uneven_logs_world
     = (Raise ResponseError, uneven_logs_world)
  /\ get_int cache (PStr (u "Cache.store:inputs")) uneven_logs_world
     = (Raise ResponseError, uneven_logs_world).
Proof.
  apply (getters_raise_on_list_key cache (PStr (u "Cache.store:inputs"))
           "Cache.store:inputs" ["('a',)"; "('b',)"] uneven_logs_world);
    reflexivity.
Defined.


(** [Cache()] on a server that held a history. *)
Lemma init_starts_from_an_empty_store_witness :
  exists self w0,
    Cache.__init__ uneven_logs_world = (Ok self, w0)
    /\ db w0 = ∅
    /\ Cache.get self (PStr (u "Cache.store")) None w0 = (Ok PNone, w0)
    /\ replay (FnBound self Cache.store) w0
       = (Ok tt, printed w0 [summary_line (u "Cache.store") 0]).
Proof.
  apply (init_starts_from_an_empty_store uneven_logs_world
           (PStr (u "Cache.store")) "Cache.store").
  reflexivity.
Defined.




(** A [store] next to a value stored by someone else. *)
Lemma store_leaves_other_keys_alone_witness :
  db (exec (__call__ Cache.store cache [PStr (u "foo")] []) coloured_world) !! "color"
  = db coloured_world !! "color"
  /\ run (Cache.get cache (PStr (u "color")) None)
       (exec (__call__ Cache.store cache [PStr (u "foo")] []) coloured_world)
     = run (Cache.get cache (PStr (u "color")) None) coloured_world.
Proof.
  apply (store_leaves_other_keys_alone cache [PStr (u "foo")] [] coloured_world
           (PStr (u "color")) "color").
  - reflexivity.
  - vm_compute. discriminate.
  - intros [E | [E | E]]; discriminate E.
Defined.

(** Two stores on a fresh cache, then [replay]. *)
Lemma replay_after_stores_witness :
  exists keys w',
    invoke_all Cache.store cache (map single_arg [PStr (u "foo"); PInt 123]) fresh_world
    = (map (fun k => Ok (PStr (u k))) keys, w')
    /\ length keys = 2
    /\ replay (FnBound cache Cache.store) w'
       = (Ok tt,
          printed w'
            (summary_line (u "Cache.store") 2
               :: zip_with (call_line (u "Cache.store"))
                    (map (fun v => py_str (PTuple [v])) [PStr (u "foo"); PInt 123])
                    (map u keys))).
Proof.
  apply (replay_after_stores cache [PStr (u "foo"); PInt 123] fresh_world).
  - reflexivity.
  - reflexivity.
  - reflexivity.
  - reflexivity.
  - repeat constructor; eexists; reflexivity.
  - vm_compute. discriminate.
Defined.



(** Three calls of [Cache.store], two of them raising, are all counted. *)
Lemma Cache_store_counter_witness :
  Redis.counter_of
    (db (snd (invoke_all Cache.store cache
                [([PNone], []); ([PStr (u "foo")], []); ([], [])] fresh_world)))
    "Cache.store"
  = Some 3%Z.
Proof.
  apply (Cache_store_counter cache
           [([PNone], []); ([PStr (u "foo")], []); ([], [])] fresh_world).
  - reflexivity.
  - reflexivity.
  - vm_compute. discriminate.
Defined.
